(** * glhf textures: a model of [texture.go] and its properties

    The package wraps an OpenGL 2D texture.  Every method of [*Texture]
    is a short sequence of driver calls plus a little Go-side logic
    (length checks, slicing, the bind/restore record).  The model below
    keeps that shape:

    - Go [int] values are [Z] with 64-bit wrap-around written out;
    - the driver is a state ([gl.State]) holding the 2D binding slot, the
      sampler parameters of every texture name, and the log of calls;
    - [*Texture] pointers are locations in a store of [Texture] structs;
    - a method is a computation in [M], a state monad over [World] whose
      result is either a value or a failure (Go panic) that keeps the
      state reached so far, so that deferred calls can still run. *)

From Stdlib Require Import ZArith Lia List String Ascii Bool.
From stdpp Require Import base option list list_numbers gmap strings pretty.

Open Scope Z_scope.

(** ** Go integers *)

Module GoInt.

(** Go's [int] on the 64-bit platforms the binding targets. *)
Definition min_int : Z := - 2 ^ 63.
Definition max_int : Z := 2 ^ 63 - 1.

(** The runtime's allocation limit there (linux/amd64): [makeslice]
    refuses more bytes than this. *)
Definition max_alloc : Z := 2 ^ 48.

(** Two's complement wrap-around of an exact result into [int]. *)
Definition wrap (z : Z) : Z := (z + 2 ^ 63) mod 2 ^ 64 - 2 ^ 63.

Definition add (a b : Z) : Z := wrap (a + b).
Definition mul (a b : Z) : Z := wrap (a * b).

(** The conversion [int32(v)]. *)
Definition int32 (z : Z) : Z := (z + 2 ^ 31) mod 2 ^ 32 - 2 ^ 31.

(** [len(s)] of a slice. *)
Definition len {A} (s : list A) : Z := Z.of_nat (length s).

Definition in_range (z : Z) : Prop := min_int <= z <= max_int.

End GoInt.

Notation "a +i b" := (GoInt.add a b) (at level 50, left associativity).
Notation "a *i b" := (GoInt.mul a b) (at level 40, left associativity).

(** ** The driver *)

(** The calls of the OpenGL binding that texture.go makes.  A call into
    the driver is taken to return to its caller; what it does is
    recorded in the log, and in the binding slot and the integer
    parameters it changes.  The binding's [gl.Ptr], which runs before
    the driver is entered and can panic, is modelled with the slices
    further down. *)
Module gl.

(** Enumerants of the OpenGL 3.3 core binding used by the package. *)
Definition TEXTURE_2D : Z := 0x0DE1.
Definition TEXTURE_BINDING_2D : Z := 0x8069.
Definition CLAMP_TO_EDGE : Z := 0x812F.
Definition CLAMP_TO_BORDER : Z := 0x812D.
Definition REPEAT : Z := 0x2901.
Definition RGBA : Z := 0x1908.
Definition RGBA8 : Z := 0x8058.
Definition UNSIGNED_BYTE : Z := 0x1401.
Definition TEXTURE_BORDER_COLOR : Z := 0x1004.
Definition TEXTURE_MAG_FILTER : Z := 0x2800.
Definition TEXTURE_MIN_FILTER : Z := 0x2801.
Definition TEXTURE_WRAP_S : Z := 0x2802.
Definition TEXTURE_WRAP_T : Z := 0x2803.
Definition NEAREST : Z := 0x2600.
Definition LINEAR : Z := 0x2601.
Definition NEAREST_MIPMAP_NEAREST : Z := 0x2700.
Definition LINEAR_MIPMAP_NEAREST : Z := 0x2701.
Definition NEAREST_MIPMAP_LINEAR : Z := 0x2702.
Definition LINEAR_MIPMAP_LINEAR : Z := 0x2703.

(** One entry of the call log.  A pointer argument ([gl.Ptr(pixels)],
    [&borderColor[0]]) is logged as the memory it points to. *)
Inductive Call : Type :=
| CGenTextures (n : Z) (names : list Z)
| CBindTexture (target obj : Z)
| CGetIntegerv (pname : Z)
| CTexStorage2D (target levels internalformat width height : Z)
| CTexSubImage2D (target level xoffset yoffset width height format xtype : Z)
                 (pixels : list Byte.byte)
| CTexImage2D (target level internalformat width height border format xtype : Z)
              (pixels : list Byte.byte)
| CGenerateMipmap (target : Z)
| CTexParameterfv (target pname : Z) (params : list Z)
| CTexParameteri (target pname param : Z)
| CGetTexImage (target level format xtype : Z).

(** What the program cannot know about the driver: the name it hands
    out and the bytes it reads back, both functions of the calls made
    so far.  Every result below holds for every such driver. *)
Record Driver : Type := {
  gen_name : list Call -> Z;
  tex_image : list Call -> list Byte.byte
}.

Record State : Type := {
  driver : Driver;
  binding2D : Z;                    (* name bound to TEXTURE_2D *)
  texParams : gmap (Z * Z) Z;       (* (name, pname) -> integer parameter *)
  calls : list Call                 (* oldest first *)
}.

Definition log (c : Call) (g : State) : State :=
  {| driver := driver g; binding2D := binding2D g;
     texParams := texParams g; calls := calls g ++ [c] |}.

Definition GenTextures1 (g : State) : Z * State :=
  let name := gen_name (driver g) (calls g) in
  (name, log (CGenTextures 1 [name]) g).

Definition BindTexture (target obj : Z) (g : State) : State :=
  let g' := log (CBindTexture target obj) g in
  if target =? TEXTURE_2D
  then {| driver := driver g'; binding2D := obj;
          texParams := texParams g'; calls := calls g' |}
  else g'.

(** Only [TEXTURE_BINDING_2D] is ever queried by the package. *)
Definition GetIntegerv (pname : Z) (g : State) : Z * State :=
  ((if pname =? TEXTURE_BINDING_2D then binding2D g else 0),
   log (CGetIntegerv pname) g).

Definition TexStorage2D (target levels internalformat width height : Z)
    (g : State) : State :=
  log (CTexStorage2D target levels internalformat width height) g.

Definition TexSubImage2D
    (target level xoffset yoffset width height format xtype : Z)
    (pixels : list Byte.byte) (g : State) : State :=
  log (CTexSubImage2D target level xoffset yoffset width height format xtype pixels) g.

Definition TexImage2D
    (target level internalformat width height border format xtype : Z)
    (pixels : list Byte.byte) (g : State) : State :=
  log (CTexImage2D target level internalformat width height border format xtype pixels) g.

Definition GenerateMipmap (target : Z) (g : State) : State :=
  log (CGenerateMipmap target) g.

Definition TexParameterfv (target pname : Z) (params : list Z) (g : State) : State :=
  log (CTexParameterfv target pname params) g.

(** Sets an integer parameter of the texture bound to the target. *)
Definition TexParameteri (target pname param : Z) (g : State) : State :=
  let g' := log (CTexParameteri target pname param) g in
  if target =? TEXTURE_2D
  then {| driver := driver g'; binding2D := binding2D g';
          texParams := <[(binding2D g, pname) := param]> (texParams g');
          calls := calls g' |}
  else g'.

(** The driver writes the image over the caller's buffer.  A Go slice
    keeps its length whatever is written through the pointer. *)
Definition overwrite (buf data : list Byte.byte) : list Byte.byte :=
  take (length buf) (data ++ drop (length data) buf).

Definition GetTexImage (target level format xtype : Z) (buf : list Byte.byte)
    (g : State) : list Byte.byte * State :=
  (overwrite buf (tex_image (driver g) (calls g)),
   log (CGetTexImage target level format xtype) g).

End gl.

(** ** Failures and the method monad *)

Inductive runtime_error : Type :=
| NilDereference          (* method called through a dangling pointer *)
| SliceBoundsOutOfRange   (* s[lo:hi] outside 0 <= lo <= hi <= cap(s) *)
| MakeSliceLenOutOfRange  (* make([]T, n) with n < 0 or beyond the limit *)
| EmptySlicePtr.          (* gl.Ptr of an empty or nil slice *)

Inductive failure : Type :=
| PanicMsg (msg : string)         (* panic("...") in the source *)
| RuntimeError (e : runtime_error)
| Undefined.                      (* misuse the package does not define *)

Inductive outcome (A : Type) : Type :=
| Ret (a : A)
| Fail (f : failure).
Arguments Ret {A} a.
Arguments Fail {A} f.

Definition is_fail {A} (r : outcome A) : bool :=
  match r with Ret _ => false | Fail _ => true end.

(** ** Data model *)

(** Modelled from the spec: the [binder] struct, declared outside
    texture.go.  The source fixes the fields [restoreLoc], [bindFunc]
    and [obj] (it initialises or reads them); [prev] holds what the spec
    calls the recorded handle.  Each Begin records one handle and each
    End consumes the latest record, which is what restoring "the handle
    active before the matching Begin" asks of nested scopes. *)
Record binder : Type := {
  restoreLoc : Z;
  bindFunc : Z -> gl.State -> gl.State;
  obj : Z;
  prev : list Z
}.

Record Texture : Type := {
  tex : binder;
  width : Z;
  height : Z;
  mipmapLevels : Z;
  smooth : bool
}.

(** A [*Texture]: the index of the struct in the store. *)
Abbreviation loc := nat (only parsing).

Record World : Type := {
  glctx : gl.State;
  heap : list Texture;        (* the structs allocated so far *)
  finalizers : list loc       (* pointers registered with runtime.SetFinalizer *)
}.

Definition set_prev (p : list Z) (tx : Texture) : Texture :=
  {| tex := {| restoreLoc := restoreLoc (tex tx); bindFunc := bindFunc (tex tx);
               obj := obj (tex tx); prev := p |};
     width := width tx; height := height tx;
     mipmapLevels := mipmapLevels tx; smooth := smooth tx |}.

Definition set_obj (o : Z) (tx : Texture) : Texture :=
  {| tex := {| restoreLoc := restoreLoc (tex tx); bindFunc := bindFunc (tex tx);
               obj := o; prev := prev (tex tx) |};
     width := width tx; height := height tx;
     mipmapLevels := mipmapLevels tx; smooth := smooth tx |}.

Definition set_smooth (b : bool) (tx : Texture) : Texture :=
  {| tex := tex tx; width := width tx; height := height tx;
     mipmapLevels := mipmapLevels tx; smooth := b |}.

(** ** The monad *)

Definition M (A : Type) : Type := World -> outcome A * World.

#[global] Instance M_ret : MRet M := fun A a w => (Ret a, w).

#[global] Instance M_bind : MBind M := fun A B f m w =>
  match m w with
  | (Ret a, w') => f a w'
  | (Fail e, w') => (Fail e, w')
  end.

Definition fail {A} (e : failure) : M A := fun w => (Fail e, w).

Definition panic {A} (msg : string) : M A := fail (PanicMsg msg).

(** Field reads and writes through a pointer. *)
Definition load (t : loc) : M Texture := fun w =>
  match heap w !! t with
  | Some tx => (Ret tx, w)
  | None => (Fail (RuntimeError NilDereference), w)
  end.

Definition update (t : loc) (f : Texture -> Texture) : M unit := fun w =>
  match heap w !! t with
  | Some tx =>
      (Ret tt, {| glctx := glctx w; heap := <[t := f tx]> (heap w);
                  finalizers := finalizers w |})
  | None => (Fail (RuntimeError NilDereference), w)
  end.

(** [&Texture{...}] *)
Definition new (tx : Texture) : M loc := fun w =>
  (Ret (length (heap w)),
   {| glctx := glctx w; heap := heap w ++ [tx]; finalizers := finalizers w |}).

(** A driver call that returns a value, and one that does not. *)
Definition glget {A} (f : gl.State -> A * gl.State) : M A := fun w =>
  let (a, g) := f (glctx w) in
  (Ret a, {| glctx := g; heap := heap w; finalizers := finalizers w |}).

Definition glcall (f : gl.State -> gl.State) : M unit :=
  glget (fun g => (tt, f g)).

(** [runtime.SetFinalizer] with the texture's [delete] method. *)
Definition SetFinalizer (t : loc) : M unit := fun w =>
  (Ret tt, {| glctx := glctx w; heap := heap w; finalizers := finalizers w ++ [t] |}).

(** [defer fin] followed by [body]: [fin] runs when [body] returns and
    also when it panics; a panic of [fin] itself wins. *)
Definition defer {A} (fin : M unit) (body : M A) : M A := fun w =>
  let (r, w1) := body w in
  match fin w1 with
  | (Ret _, w2) => (r, w2)
  | (Fail e, w2) => (Fail e, w2)
  end.

(** ** Slices of bytes *)

Definition zero_byte : Byte.byte := Byte.x00.

(** [make([]uint8, n)]: panics for a negative length and for one beyond
    the allocation limit; memory is taken to suffice below the limit. *)
Definition make (n : Z) : M (list Byte.byte) :=
  if (n <? 0) || (GoInt.max_alloc <? n) then fail (RuntimeError MakeSliceLenOutOfRange)
  else mret (replicate (Z.to_nat n) zero_byte).

(** [gl.Ptr(data)] for a slice: the address of element 0, which the
    binding takes by reflection and which panics when there is no such
    element.  The pointer is modelled by the bytes it points to. *)
Definition Ptr (data : list Byte.byte) : M (list Byte.byte) :=
  match data with
  | [] => fail (RuntimeError EmptySlicePtr)
  | _ :: _ => mret data
  end.

(** The bounds check of [s[lo:hi]]; [cap(s) = len(s)] for the buffers here. *)
Definition slice_ok {A} (s : list A) (lo hi : Z) : bool :=
  (0 <=? lo) && (lo <=? hi) && (hi <=? GoInt.len s).

(** The bytes a slice [s[lo:hi]] views. *)
Definition sub {A} (s : list A) (lo hi : Z) : list A :=
  take (Z.to_nat (hi - lo)) (drop (Z.to_nat lo) s).

(** [copy(dst[lo:hi], src)]: writes through the view into [dst], as many
    bytes as the shorter of the two slices has. *)
Definition copy_into {A} (dst : list A) (lo hi : Z) (src : list A) : list A :=
  let n := Nat.min (Z.to_nat (hi - lo)) (length src) in
  take (Z.to_nat lo) dst ++ take n src ++ drop (Z.to_nat lo + n) dst.

(** ** texture.go *)

(** [type Wrap int32] and its three constants. *)
Definition Wrap : Type := Z.
Definition CLAMP_TO_EDGE : Wrap := gl.CLAMP_TO_EDGE.
Definition CLAMP_TO_BORDER : Wrap := gl.CLAMP_TO_BORDER.
Definition REPEAT : Wrap := gl.REPEAT.

(** Modelled from the spec: [binder.bind], not in texture.go.  "Binds
    this resource's native handle into its target's binding slot, first
    recording whatever handle was previously bound there." *)
Definition bind (t : loc) : M unit :=
  tx ← load t;
  p ← glget (gl.GetIntegerv (restoreLoc (tex tx)));
  update t (set_prev (p :: prev (tex tx)));;
  glcall (bindFunc (tex tx) (obj (tex tx))).

(** Modelled from the spec: [binder.restore], not in texture.go.
    "Restores the previously recorded handle into the slot."  An End
    with nothing recorded is misuse the spec leaves undefined. *)
Definition restore (t : loc) : M unit :=
  tx ← load t;
  match prev (tex tx) with
  | [] => fail Undefined
  | p :: rest =>
      glcall (bindFunc (tex tx) p);;
      update t (set_prev rest)
  end.

(** [Begin] binds the texture; [End] unbinds it and restores the
    previous one. *)
Definition Begin (t : loc) : M unit := bind t.

Definition End (t : loc) : M unit := restore t.

(** The getters [ID], [Width], [Height] and [Smooth]. *)
Definition ID (t : loc) : M Z := tx ← load t; mret (obj (tex tx)).
Definition Width (t : loc) : M Z := tx ← load t; mret (width tx).
Definition Height (t : loc) : M Z := tx ← load t; mret (height tx).
Definition Smooth (t : loc) : M bool := tx ← load t; mret (smooth tx).

(** [SetSmooth] stores the flag and sets the two filters of the bound
    texture. *)
Definition SetSmooth (t : loc) (smooth : bool) : M unit :=
  update t (set_smooth smooth);;
  if smooth then
    tx ← load t;
    (if mipmapLevels tx >? 0
     then glcall (gl.TexParameteri gl.TEXTURE_2D gl.TEXTURE_MIN_FILTER gl.LINEAR_MIPMAP_LINEAR)
     else glcall (gl.TexParameteri gl.TEXTURE_2D gl.TEXTURE_MIN_FILTER gl.LINEAR));;
    glcall (gl.TexParameteri gl.TEXTURE_2D gl.TEXTURE_MAG_FILTER gl.LINEAR)
  else
    tx ← load t;
    (if mipmapLevels tx >? 0
     then glcall (gl.TexParameteri gl.TEXTURE_2D gl.TEXTURE_MIN_FILTER gl.LINEAR_MIPMAP_NEAREST)
     else glcall (gl.TexParameteri gl.TEXTURE_2D gl.TEXTURE_MIN_FILTER gl.NEAREST));;
    glcall (gl.TexParameteri gl.TEXTURE_2D gl.TEXTURE_MAG_FILTER gl.NEAREST).

(** [SetWrap] sets the wrap mode of both axes. *)
Definition SetWrap (t : loc) (wrap : Wrap) : M unit :=
  glcall (gl.TexParameteri gl.TEXTURE_2D gl.TEXTURE_WRAP_S (GoInt.int32 wrap));;
  glcall (gl.TexParameteri gl.TEXTURE_2D gl.TEXTURE_WRAP_T (GoInt.int32 wrap)).

(** [SetPixels] checks the length of [pixels], uploads the rectangle to
    level 0 and regenerates the mipmaps of a texture that has them.  The
    argument [gl.Ptr(pixels)] is evaluated before the upload is called. *)
Definition SetPixels (t : loc) (x y w h : Z) (pixels : list Byte.byte) : M unit :=
  if negb (GoInt.len pixels =? w *i h *i 4) then
    panic "set pixels: wrong number of pixels"
  else
    p ← Ptr pixels;
    glcall (gl.TexSubImage2D gl.TEXTURE_2D 0
              (GoInt.int32 x) (GoInt.int32 y) (GoInt.int32 w) (GoInt.int32 h)
              gl.RGBA gl.UNSIGNED_BYTE p);;
    tx ← load t;
    if mipmapLevels tx >? 0 then glcall (gl.GenerateMipmap gl.TEXTURE_2D)
    else mret tt.

(** The body of the loop of [Pixels], run for [i] in the given rows. *)
Fixpoint copyRows (twidth x y w : Z) (pixels : list Byte.byte) (rows : list Z)
    (subPixels : list Byte.byte) : M (list Byte.byte) :=
  match rows with
  | [] => mret subPixels
  | i :: rows' =>
      let lo := (i +i y) *i twidth *i 4 +i x *i 4 in
      let hi := (i +i y) *i twidth *i 4 +i (x +i w) *i 4 in
      if negb (slice_ok pixels lo hi) then fail (RuntimeError SliceBoundsOutOfRange)
      else
        let row := sub pixels lo hi in
        let slo := i *i w *i 4 in
        let shi := (i +i 1) *i w *i 4 in
        if negb (slice_ok subPixels slo shi) then fail (RuntimeError SliceBoundsOutOfRange)
        else copyRows twidth x y w pixels rows' (copy_into subPixels slo shi row)
  end.

(** [Pixels] reads the whole image back and copies the rows asked for.
    Its loop [for i := 0; i < h; i++] visits [0, 1, ..., h-1], and
    nothing when [h <= 0]; neither [i] nor [h] is assigned in the body. *)
Definition Pixels (t : loc) (x y w h : Z) : M (list Byte.byte) :=
  tx ← load t;
  pixels ← make (width tx *i height tx *i 4);
  p ← Ptr pixels;
  pixels ← glget (gl.GetTexImage gl.TEXTURE_2D 0 gl.RGBA gl.UNSIGNED_BYTE p);
  subPixels ← make (w *i h *i 4);
  copyRows (width tx) x y w pixels (seqZ 0 h) subPixels.

(** [NewTexture] allocates the struct and a texture name, and sets the
    texture up between [Begin] and a deferred [End].  The [delete]
    method it registers as finalizer runs later, on another goroutine,
    and is outside this sequential model; the registration is recorded. *)
Definition NewTexture (width height mipmapLevels : Z) (smooth : bool)
    (pixels : list Byte.byte) : M loc :=
  tex ← new {| tex := {| restoreLoc := gl.TEXTURE_BINDING_2D;
                         bindFunc := fun obj => gl.BindTexture gl.TEXTURE_2D obj;
                         obj := 0; prev := [] |};
               width := width; height := height;
               mipmapLevels := mipmapLevels; smooth := false |};
  name ← glget gl.GenTextures1;
  update tex (set_obj name);;
  Begin tex;;
  defer (End tex)
    ((if mipmapLevels >? 0 then
        glcall (gl.TexStorage2D gl.TEXTURE_2D (GoInt.int32 mipmapLevels) gl.RGBA8
                  (GoInt.int32 width) (GoInt.int32 height));;
        p ← Ptr pixels;
        glcall (gl.TexSubImage2D gl.TEXTURE_2D 0 0 0
                  (GoInt.int32 width) (GoInt.int32 height)
                  gl.RGBA gl.UNSIGNED_BYTE p);;
        glcall (gl.GenerateMipmap gl.TEXTURE_2D)
      else
        p ← Ptr pixels;
        glcall (gl.TexImage2D gl.TEXTURE_2D 0 gl.RGBA
                  (GoInt.int32 width) (GoInt.int32 height) 0
                  gl.RGBA gl.UNSIGNED_BYTE p));;
     glcall (gl.TexParameterfv gl.TEXTURE_2D gl.TEXTURE_BORDER_COLOR [0; 0; 0; 0]);;
     SetSmooth tex smooth;;
     SetWrap tex CLAMP_TO_BORDER;;
     SetFinalizer tex;;
     mret tex).

(** ** Vocabulary of the properties *)

(** The exact byte offsets of row [i] in the full image and in the result. *)
Definition rowLo (twidth x y i : Z) : Z := (i + y) * twidth * 4 + x * 4.

Definition rowHi (twidth x y w i : Z) : Z := (i + y) * twidth * 4 + (x + w) * 4.

(** The index expressions of iteration [i] do not overflow. *)
Definition row_exact (twidth x y w i : Z) : Prop :=
  (i +i y) *i twidth *i 4 +i x *i 4 = rowLo twidth x y i
  /\ (i +i y) *i twidth *i 4 +i (x +i w) *i 4 = rowHi twidth x y w i
  /\ i *i w *i 4 = i * w * 4
  /\ (i +i 1) *i w *i 4 = (i + 1) * w * 4.

(** The world after one more driver call has been logged. *)
Definition logged (c : gl.Call) (w : World) : World :=
  {| glctx := gl.log c (glctx w); heap := heap w; finalizers := finalizers w |}.

(** The temporary buffer of [Pixels] once the driver has filled it: the
    full-image readback. *)
Definition readback (tx : Texture) (w : World) : list Byte.byte :=
  gl.overwrite (replicate (Z.to_nat (width tx * height tx * 4)) zero_byte)
               (gl.tex_image (gl.driver (glctx w)) (gl.calls (glctx w))).

(** The dimensions of a texture whose full-image buffer exists: both
    positive, and width x height x 4 bytes within what [make] allocates. *)
Definition well_sized (tx : Texture) : Prop :=
  0 < width tx
  /\ 0 < height tx
  /\ width tx * height tx * 4 <= GoInt.max_alloc.

(** The rectangle lies inside [0,width) x [0,height). *)
Definition inside (tx : Texture) (x y w h : Z) : Prop :=
  0 <= x /\ 0 <= y /\ 0 <= w /\ 0 <= h
  /\ x + w <= width tx /\ y + h <= height tx.

(** Magnitudes far below the overflow of any index expression. *)
Definition small (z : Z) : Prop := - 2 ^ 29 <= z <= 2 ^ 29.

(** A 2x2 texture, bound, on a driver that reads back the bytes 0..15
    and names new textures after the number of calls made. *)
Definition example_driver : gl.Driver :=
  {| gl.gen_name := fun cs => 2 + GoInt.len cs;
     gl.tex_image := fun _ =>
       (fun n => default Byte.x00 (Byte.of_nat n)) <$> seq 0 16 |}.

Definition example_texture (levels : Z) : Texture :=
  {| tex := {| restoreLoc := gl.TEXTURE_BINDING_2D;
               bindFunc := fun obj => gl.BindTexture gl.TEXTURE_2D obj;
               obj := 1; prev := [] |};
     width := 2; height := 2; mipmapLevels := levels; smooth := false |}.

Definition example_world (levels : Z) : World :=
  {| glctx := {| gl.driver := example_driver; gl.binding2D := 1;
                 gl.texParams := ∅; gl.calls := [] |};
     heap := [example_texture levels];
     finalizers := [] |}.

(** The text of the one explicit panic of the package. *)
Definition size_message : string := "set pixels: wrong number of pixels".

(** Whether the decimal numeral of [n] occurs in a message. *)
Definition mentions (n : Z) (msg : string) : bool :=
  match String.index 0 (pretty n) msg with
  | Some _ => true
  | None => false
  end.

(** A message that names the expected and the actual byte count. *)
Definition names_counts (msg : string) (expected actual : Z) : bool :=
  mentions expected msg && mentions actual msg.

Definition is_digit (c : ascii) : bool :=
  (Ascii.leb "0" c && Ascii.leb c "9")%char.

Definition has_digit (msg : string) : bool :=
  existsb is_digit (list_ascii_of_string msg).

(** The minification filter the code selects. *)
Definition min_filter (smooth : bool) (levels : Z) : Z :=
  if smooth
  then (if levels >? 0 then gl.LINEAR_MIPMAP_LINEAR else gl.LINEAR)
  else (if levels >? 0 then gl.LINEAR_MIPMAP_NEAREST else gl.NEAREST).

Definition mag_filter (smooth : bool) : Z :=
  if smooth then gl.LINEAR else gl.NEAREST.

(** The driver calls of a valid [SetPixels] on a texture with the given
    number of mipmap levels. *)
Definition upload_calls (levels x y w h : Z) (pixels : list Byte.byte) : list gl.Call :=
  gl.CTexSubImage2D gl.TEXTURE_2D 0
    (GoInt.int32 x) (GoInt.int32 y) (GoInt.int32 w) (GoInt.int32 h)
    gl.RGBA gl.UNSIGNED_BYTE pixels
  :: (if levels >? 0 then [gl.CGenerateMipmap gl.TEXTURE_2D] else []).

(** The world with more calls in the driver's log and nothing else changed. *)
Definition with_calls (w : World) (cs : list gl.Call) : World :=
  {| glctx := {| gl.driver := gl.driver (glctx w);
                 gl.binding2D := gl.binding2D (glctx w);
                 gl.texParams := gl.texParams (glctx w);
                 gl.calls := gl.calls (glctx w) ++ cs |};
     heap := heap w; finalizers := finalizers w |}.

(** A struct set up the way [NewTexture] sets it up: its binder restores
    from [TEXTURE_BINDING_2D] and binds to [TEXTURE_2D]. *)
Definition is_texture (tx : Texture) : Prop :=
  restoreLoc (tex tx) = gl.TEXTURE_BINDING_2D
  /\ forall o g, bindFunc (tex tx) o g = gl.BindTexture gl.TEXTURE_2D o g.

(** The world after [SetSmooth]. *)
Definition smoothed (t : loc) (tx : Texture) (b : bool) (w : World) : World :=
  {| glctx :=
       gl.TexParameteri gl.TEXTURE_2D gl.TEXTURE_MAG_FILTER (mag_filter b)
         (gl.TexParameteri gl.TEXTURE_2D gl.TEXTURE_MIN_FILTER
            (min_filter b (mipmapLevels tx)) (glctx w));
     heap := <[t := set_smooth b tx]> (heap w);
     finalizers := finalizers w |}.

(** The world after [SetWrap]. *)
Definition wrapped (wrap : Wrap) (w : World) : World :=
  {| glctx :=
       gl.TexParameteri gl.TEXTURE_2D gl.TEXTURE_WRAP_T (GoInt.int32 wrap)
         (gl.TexParameteri gl.TEXTURE_2D gl.TEXTURE_WRAP_S (GoInt.int32 wrap)
            (glctx w));
     heap := heap w; finalizers := finalizers w |}.

(** The world after [Begin] on a texture. *)
Definition begun (t : loc) (tx : Texture) (w : World) : World :=
  {| glctx := gl.BindTexture gl.TEXTURE_2D (obj (tex tx))
                (gl.log (gl.CGetIntegerv gl.TEXTURE_BINDING_2D) (glctx w));
     heap := <[t := set_prev (gl.binding2D (glctx w) :: prev (tex tx)) tx]> (heap w);
     finalizers := finalizers w |}.

(** Sequences of Begin and End calls, and the properly nested ones. *)
Inductive scope_op : Type :=
| OpBegin (t : loc)
| OpEnd (t : loc).

Definition scope_loc (o : scope_op) : loc :=
  match o with OpBegin t | OpEnd t => t end.

Definition exec_scope (o : scope_op) : M unit :=
  match o with
  | OpBegin t => Begin t
  | OpEnd t => End t
  end.

Fixpoint run_scope (os : list scope_op) : M unit :=
  match os with
  | [] => mret tt
  | o :: os' => exec_scope o;; run_scope os'
  end.

Inductive nested : list scope_op -> Prop :=
| nested_nil : nested []
| nested_scope t body rest :
    nested body -> nested rest ->
    nested (OpBegin t :: body ++ OpEnd t :: rest).

(** Every pointer used is to an allocated, properly set up struct. *)
Definition scopes_ok (w : World) (os : list scope_op) : Prop :=
  Forall is_texture (heap w)
  /\ Forall (fun o => (scope_loc o < length (heap w))%nat) os.

(** A computation that leaves the binding slot and the binder of the
    struct at [t] as it found them, whether it returns or panics. *)
Definition leaves_binding {A} (t : loc) (body : M A) : Prop :=
  forall w,
    gl.binding2D (glctx (snd (body w))) = gl.binding2D (glctx w)
    /\ tex <$> heap (snd (body w)) !! t = tex <$> heap w !! t.

(** What [NewTexture] runs between its [Begin] and its deferred [End]. *)
Definition construction (tex : loc) (width height mipmapLevels : Z) (smooth : bool)
    (pixels : list Byte.byte) : M loc :=
  (if mipmapLevels >? 0 then
     glcall (gl.TexStorage2D gl.TEXTURE_2D (GoInt.int32 mipmapLevels) gl.RGBA8
               (GoInt.int32 width) (GoInt.int32 height));;
     p ← Ptr pixels;
     glcall (gl.TexSubImage2D gl.TEXTURE_2D 0 0 0
               (GoInt.int32 width) (GoInt.int32 height)
               gl.RGBA gl.UNSIGNED_BYTE p);;
     glcall (gl.GenerateMipmap gl.TEXTURE_2D)
   else
     p ← Ptr pixels;
     glcall (gl.TexImage2D gl.TEXTURE_2D 0 gl.RGBA
               (GoInt.int32 width) (GoInt.int32 height) 0
               gl.RGBA gl.UNSIGNED_BYTE p));;
  glcall (gl.TexParameterfv gl.TEXTURE_2D gl.TEXTURE_BORDER_COLOR [0; 0; 0; 0]);;
  SetSmooth tex smooth;;
  SetWrap tex CLAMP_TO_BORDER;;
  SetFinalizer tex;;
  mret tex.

(** The storage and upload calls of construction. *)
Definition storage_calls (width height mipmapLevels : Z) (pixels : list Byte.byte)
    : list gl.Call :=
  if mipmapLevels >? 0 then
    [gl.CTexStorage2D gl.TEXTURE_2D (GoInt.int32 mipmapLevels) gl.RGBA8
       (GoInt.int32 width) (GoInt.int32 height);
     gl.CTexSubImage2D gl.TEXTURE_2D 0 0 0 (GoInt.int32 width) (GoInt.int32 height)
       gl.RGBA gl.UNSIGNED_BYTE pixels;
     gl.CGenerateMipmap gl.TEXTURE_2D]
  else
    [gl.CTexImage2D gl.TEXTURE_2D 0 gl.RGBA (GoInt.int32 width) (GoInt.int32 height) 0
       gl.RGBA gl.UNSIGNED_BYTE pixels].

(** The calls of construction that set sampler parameters. *)
Definition parameter_calls (mipmapLevels : Z) (smooth : bool) : list gl.Call :=
  [gl.CTexParameterfv gl.TEXTURE_2D gl.TEXTURE_BORDER_COLOR [0; 0; 0; 0];
   gl.CTexParameteri gl.TEXTURE_2D gl.TEXTURE_MIN_FILTER (min_filter smooth mipmapLevels);
   gl.CTexParameteri gl.TEXTURE_2D gl.TEXTURE_MAG_FILTER (mag_filter smooth);
   gl.CTexParameteri gl.TEXTURE_2D gl.TEXTURE_WRAP_S gl.CLAMP_TO_BORDER;
   gl.CTexParameteri gl.TEXTURE_2D gl.TEXTURE_WRAP_T gl.CLAMP_TO_BORDER].

(** The sampler state of texture [name] after construction. *)
Definition constructed_params (name mipmapLevels : Z) (smooth : bool)
    (p : gmap (Z * Z) Z) : gmap (Z * Z) Z :=
  <[(name, gl.TEXTURE_WRAP_T) := gl.CLAMP_TO_BORDER]>
    (<[(name, gl.TEXTURE_WRAP_S) := gl.CLAMP_TO_BORDER]>
       (<[(name, gl.TEXTURE_MAG_FILTER) := mag_filter smooth]>
          (<[(name, gl.TEXTURE_MIN_FILTER) := min_filter smooth mipmapLevels]> p))).

(** The struct [NewTexture] returns a pointer to. *)
Definition constructed_texture (name width height mipmapLevels : Z) (smooth : bool)
    : Texture :=
  {| tex := {| restoreLoc := gl.TEXTURE_BINDING_2D;
               bindFunc := fun obj => gl.BindTexture gl.TEXTURE_2D obj;
               obj := name; prev := [] |};
     width := width; height := height;
     mipmapLevels := mipmapLevels; smooth := smooth |}.

(** The world [NewTexture] leaves behind. *)
Definition constructed (width height mipmapLevels : Z) (smooth : bool)
    (pixels : list Byte.byte) (w : World) : World :=
  let g := glctx w in
  let name := gl.gen_name (gl.driver g) (gl.calls g) in
  {| glctx :=
       {| gl.driver := gl.driver g;
          gl.binding2D := gl.binding2D g;
          gl.texParams := constructed_params name mipmapLevels smooth (gl.texParams g);
          gl.calls :=
            gl.calls g
            ++ [gl.CGenTextures 1 [name];
                gl.CGetIntegerv gl.TEXTURE_BINDING_2D;
                gl.CBindTexture gl.TEXTURE_2D name]
            ++ storage_calls width height mipmapLevels pixels
            ++ parameter_calls mipmapLevels smooth
            ++ [gl.CBindTexture gl.TEXTURE_2D (gl.binding2D g)] |};
     heap := heap w ++ [constructed_texture name width height mipmapLevels smooth];
     finalizers := finalizers w ++ [length (heap w)] |}.

(** The world [NewTexture] leaves behind when [gl.Ptr] panics on an
    empty pixel buffer: the struct was allocated and named, storage was
    allocated for a texture with mipmap levels, nothing was uploaded or
    set, no finalizer was registered, and the deferred [End] has run. *)
Definition aborted (width height mipmapLevels : Z) (w : World) : World :=
  let g := glctx w in
  let name := gl.gen_name (gl.driver g) (gl.calls g) in
  {| glctx :=
       {| gl.driver := gl.driver g;
          gl.binding2D := gl.binding2D g;
          gl.texParams := gl.texParams g;
          gl.calls :=
            gl.calls g
            ++ [gl.CGenTextures 1 [name];
                gl.CGetIntegerv gl.TEXTURE_BINDING_2D;
                gl.CBindTexture gl.TEXTURE_2D name]
            ++ (if mipmapLevels >? 0
                then [gl.CTexStorage2D gl.TEXTURE_2D (GoInt.int32 mipmapLevels) gl.RGBA8
                        (GoInt.int32 width) (GoInt.int32 height)]
                else [])
            ++ [gl.CBindTexture gl.TEXTURE_2D (gl.binding2D g)] |};
     heap := heap w ++ [constructed_texture name width height mipmapLevels false];
     finalizers := finalizers w |}.

(** Two textures, names 1 and 2, with name 7 bound. *)
Definition two_textures : World :=
  {| glctx := {| gl.driver := example_driver; gl.binding2D := 7;
                 gl.texParams := ∅; gl.calls := [] |};
     heap := [constructed_texture 1 2 2 0 false; constructed_texture 2 4 4 1 true];
     finalizers := [] |}.

(** Any call of the package's interface that can change the world. *)
Inductive call : Type :=
| CallNewTexture (width height mipmapLevels : Z) (smooth : bool) (pixels : list Byte.byte)
| CallBegin (t : loc)
| CallEnd (t : loc)
| CallSetPixels (t : loc) (x y w h : Z) (pixels : list Byte.byte)
| CallPixels (t : loc) (x y w h : Z)
| CallSetSmooth (t : loc) (smooth : bool)
| CallSetWrap (t : loc) (wrap : Wrap).

Definition exec (c : call) : M unit :=
  match c with
  | CallNewTexture width height mipmapLevels smooth pixels =>
      NewTexture width height mipmapLevels smooth pixels;; mret tt
  | CallBegin t => Begin t
  | CallEnd t => End t
  | CallSetPixels t x y w h pixels => SetPixels t x y w h pixels
  | CallPixels t x y w h => Pixels t x y w h;; mret tt
  | CallSetSmooth t smooth => SetSmooth t smooth
  | CallSetWrap t wrap => SetWrap t wrap
  end.

(** The world after a sequence of calls; a call that panics leaves the
    world as it was at the panic, and a caller that recovers goes on. *)
Definition run (cs : list call) (w : World) : World :=
  fold_left (fun w c => snd (exec c w)) cs w.

(** Every struct of [w] is still in [w'], with its mipmap level count. *)
Definition levels_kept (w w' : World) : Prop :=
  forall t tx, heap w !! t = Some tx ->
    exists tx', heap w' !! t = Some tx' /\ mipmapLevels tx' = mipmapLevels tx.

Definition keeps_levels {A} (m : M A) : Prop :=
  forall w, levels_kept w (snd (m w)).

(** ** Vocabulary of the further properties *)

(** A computation whose every run relates the world before to the world
    after by [Q]. *)
Definition respects (Q : World -> World -> Prop) {A} (m : M A) : Prop :=
  forall w, Q w (snd (m w)).

(** Every struct of [w] is still in [w'], at the same pointer, and
    related to what it was by [R]. *)
Definition structs_kept (R : nat -> Texture -> Texture -> Prop) (w w' : World) : Prop :=
  forall t tx, heap w !! t = Some tx ->
    exists tx', heap w' !! t = Some tx' /\ R t tx' tx.

(** The fields no method assigns after construction. *)
Definition same_fixed_fields (t : nat) (tx' tx : Texture) : Prop :=
  width tx' = width tx /\ height tx' = height tx /\ obj (tex tx') = obj (tex tx).

(** The smoothing flag of the struct at [t0]. *)
Definition same_smooth_at (t0 t : nat) (tx' tx : Texture) : Prop :=
  t = t0 -> smooth tx' = smooth tx.



(** The minification filters that sample from the mip chain. *)
Definition is_mipmap_filter (v : Z) : bool :=
  (v =? gl.NEAREST_MIPMAP_NEAREST) || (v =? gl.LINEAR_MIPMAP_NEAREST)
  || (v =? gl.NEAREST_MIPMAP_LINEAR) || (v =? gl.LINEAR_MIPMAP_LINEAR).

(** Calls that open or close a scope. *)
Definition is_scope_call (c : call) : bool :=
  match c with
  | CallBegin _ | CallEnd _ => true
  | _ => false
  end.

(** Calls that assign the smoothing flag of the struct at [t0]. *)
Definition sets_smooth_of (t0 : nat) (c : call) : bool :=
  match c with
  | CallSetSmooth t _ => bool_decide (t = t0)
  | _ => false
  end.

(** The value [int32] can hold. *)
Definition in_int32 (z : Z) : Prop := - 2 ^ 31 <= z < 2 ^ 31.

(** * Properties *)

(** ** Integer arithmetic without overflow *)

Lemma wrap_exact z : GoInt.in_range z -> GoInt.wrap z = z.
Proof.
  unfold GoInt.in_range, GoInt.min_int, GoInt.max_int, GoInt.wrap. intros Hz.
  rewrite Z.mod_small; lia.
Qed.

Lemma add_exact a b : GoInt.in_range (a + b) -> a +i b = a + b.
Proof. apply wrap_exact. Qed.

Lemma mul_exact a b : GoInt.in_range (a * b) -> a *i b = a * b.
Proof. apply wrap_exact. Qed.

(** ** Slices *)

Section Slices.
Context {A : Type}.
Implicit Types (s dst src : list A).

Lemma slice_ok_true s lo hi :
  slice_ok s lo hi = true <-> 0 <= lo /\ lo <= hi /\ hi <= GoInt.len s.
Proof. unfold slice_ok. rewrite !andb_true_iff, !Z.leb_le. tauto. Qed.

Lemma slice_ok_false s lo hi :
  slice_ok s lo hi = false <-> lo < 0 \/ hi < lo \/ GoInt.len s < hi.
Proof.
  rewrite <- not_true_iff_false, slice_ok_true. lia.
Qed.

Lemma length_sub s lo hi :
  0 <= lo -> lo <= hi -> hi <= GoInt.len s ->
  length (sub s lo hi) = Z.to_nat (hi - lo).
Proof.
  unfold sub, GoInt.len. intros. rewrite length_take, length_drop. lia.
Qed.

Lemma length_copy_into dst lo hi src :
  0 <= lo -> lo <= hi -> hi <= GoInt.len dst ->
  length (copy_into dst lo hi src) = length dst.
Proof.
  unfold copy_into, GoInt.len. intros.
  rewrite !length_app, !length_take, length_drop. lia.
Qed.

(** Writing a row leaves everything before the row as it was. *)
Lemma take_copy_into dst lo hi src :
  0 <= lo -> lo <= GoInt.len dst ->
  take (Z.to_nat lo) (copy_into dst lo hi src) = take (Z.to_nat lo) dst.
Proof.
  unfold copy_into, GoInt.len. intros.
  rewrite take_app_le by (rewrite length_take; lia).
  rewrite take_take. f_equal. lia.
Qed.

(** A full-length source ends up in the window written. *)
Lemma sub_copy_into dst lo hi src :
  0 <= lo -> lo <= hi -> hi <= GoInt.len dst ->
  length src = Z.to_nat (hi - lo) ->
  sub (copy_into dst lo hi src) lo hi = src.
Proof.
  unfold copy_into, sub, GoInt.len. intros ? ? ? Hsrc.
  rewrite Hsrc, Nat.min_id.
  rewrite drop_app_length' by (rewrite length_take; lia).
  rewrite take_app_le by (rewrite length_take; lia).
  rewrite take_take, Nat.min_id. apply take_ge. lia.
Qed.

(** A window depends only on the prefix that ends where it ends. *)
Lemma sub_prefix s s' lo hi :
  0 <= lo -> lo <= hi ->
  take (Z.to_nat hi) s = take (Z.to_nat hi) s' ->
  sub s lo hi = sub s' lo hi.
Proof.
  unfold sub. intros ? ? Heq.
  rewrite !take_drop_commute.
  replace (Z.to_nat lo + Z.to_nat (hi - lo))%nat with (Z.to_nat hi) by lia.
  by rewrite Heq.
Qed.

Lemma take_prefix s s' (n m : nat) :
  (n <= m)%nat -> take m s = take m s' -> take n s = take n s'.
Proof.
  intros Hle Heq.
  rewrite <- (Nat.min_l n m Hle), <- !take_take. by rewrite Heq.
Qed.

End Slices.

(** ** The row loop of [Pixels] *)

Lemma copyRows_ok twidth x y w pixels H (n : nat) :
  forall i0 subP wd,
    0 <= i0 -> 0 <= w -> i0 + Z.of_nat n <= H ->
    GoInt.len subP = w * H * 4 ->
    (forall i, i0 <= i < i0 + Z.of_nat n ->
       row_exact twidth x y w i
       /\ 0 <= rowLo twidth x y i /\ rowHi twidth x y w i <= GoInt.len pixels) ->
    exists out,
      copyRows twidth x y w pixels (seqZ i0 (Z.of_nat n)) subP wd = (Ret out, wd)
      /\ length out = length subP
      /\ take (Z.to_nat (i0 * w * 4)) out = take (Z.to_nat (i0 * w * 4)) subP
      /\ forall i, i0 <= i < i0 + Z.of_nat n ->
           sub out (i * w * 4) ((i + 1) * w * 4)
           = sub pixels (rowLo twidth x y i) (rowHi twidth x y w i).
Proof.
  induction n as [|n IH]; intros i0 subP wd Hi0 Hw HH Hlen Hrows.
  - exists subP. simpl. repeat split; auto. intros; lia.
  - rewrite seqZ_cons by lia.
    replace (Z.pred (Z.of_nat (S n))) with (Z.of_nat n) by lia.
    destruct (Hrows i0 ltac:(lia)) as ((Elo & Ehi & Eslo & Eshi) & Hlo & Hhi).
    assert (Hlohi : rowLo twidth x y i0 <= rowHi twidth x y w i0)
      by (unfold rowLo, rowHi; lia).
    assert (Hiw : 0 <= i0 * w) by (apply Z.mul_nonneg_nonneg; lia).
    assert (Hwin : (i0 + 1) * w * 4 <= GoInt.len subP).
    { rewrite Hlen. assert ((i0 + 1) * w <= H * w)
        by (apply Z.mul_le_mono_nonneg_r; lia). lia. }
    assert (Hwin0 : 0 <= i0 * w * 4 <= (i0 + 1) * w * 4) by lia.
    cbn [copyRows]. rewrite Elo, Ehi, Eslo, Eshi.
    rewrite (proj2 (slice_ok_true pixels _ _)) by lia.
    rewrite (proj2 (slice_ok_true subP _ _)) by lia.
    cbn [negb].
    set (row := sub pixels (rowLo twidth x y i0) (rowHi twidth x y w i0)).
    set (sub1 := copy_into subP (i0 * w * 4) ((i0 + 1) * w * 4) row).
    assert (Hrow : length row = Z.to_nat ((i0 + 1) * w * 4 - i0 * w * 4)).
    { unfold row. rewrite length_sub by lia. unfold rowLo, rowHi. f_equal. lia. }
    assert (Hlen1 : length sub1 = length subP)
      by (apply length_copy_into; lia).
    destruct (IH (Z.succ i0) sub1 wd) as (out & Hrun & Hlout & Hpre & Hout);
      try lia.
    { unfold GoInt.len in *. rewrite Hlen1. exact Hlen. }
    { intros i Hi. apply Hrows. lia. }
    exists out. split; [exact Hrun|]. split; [congruence|].
    replace (Z.succ i0) with (i0 + 1) in Hpre by lia.
    split.
    + rewrite <- (take_copy_into subP (i0 * w * 4) ((i0 + 1) * w * 4) row)
        by (unfold GoInt.len in *; lia).
      fold sub1. eapply take_prefix; [|exact Hpre]. lia.
    + intros i Hi. destruct (Z.eq_dec i i0) as [->|Hne].
      * rewrite (sub_prefix out sub1) by (lia || exact Hpre).
        unfold sub1. apply sub_copy_into; [lia|lia|lia|exact Hrow].
      * apply Hout. lia.
Qed.

(** A row whose slice leaves the image buffer stops the loop, whatever
    the rows before it did. *)
Lemma copyRows_fail twidth x y w pixels rows :
  forall subP wd i,
    i ∈ rows ->
    slice_ok pixels ((i +i y) *i twidth *i 4 +i x *i 4)
                    ((i +i y) *i twidth *i 4 +i (x +i w) *i 4) = false ->
    is_fail (fst (copyRows twidth x y w pixels rows subP wd)) = true.
Proof.
  induction rows as [|j rows IH]; intros subP wd i Hin Hbad.
  - by apply elem_of_nil in Hin.
  - cbn [copyRows].
    destruct (slice_ok pixels _ _) eqn:Hj at 1; cbn [negb]; [|reflexivity].
    destruct (slice_ok subP _ _); cbn [negb]; [|reflexivity].
    apply elem_of_cons in Hin as [->|Hin]; [congruence|].
    by apply (IH _ _ i).
Qed.

(** ** Running computations *)

Lemma run_bind {A B} (m : M A) (f : A -> M B) w :
  (m ≫= f) w = match m w with
               | (Ret a, w') => f a w'
               | (Fail e, w') => (Fail e, w')
               end.
Proof. reflexivity. Qed.

Lemma run_bind_ret {A B} (m : M A) (f : A -> M B) w a w' :
  m w = (Ret a, w') -> (m ≫= f) w = f a w'.
Proof. intros H. by rewrite run_bind, H. Qed.

Lemma run_bind_fail {A B} (m : M A) (f : A -> M B) w e w' :
  m w = (Fail e, w') -> (m ≫= f) w = (Fail e, w').
Proof. intros H. by rewrite run_bind, H. Qed.

Lemma run_load t tx w : heap w !! t = Some tx -> load t w = (Ret tx, w).
Proof. unfold load. by intros ->. Qed.

Lemma run_make n w :
  0 <= n <= GoInt.max_alloc ->
  make n w = (Ret (replicate (Z.to_nat n) zero_byte), w).
Proof.
  intros Hn. unfold make.
  destruct (Z.ltb_spec n 0), (Z.ltb_spec GoInt.max_alloc n); (lia || reflexivity).
Qed.

Lemma run_make_fail n w :
  n < 0 \/ GoInt.max_alloc < n ->
  make n w = (Fail (RuntimeError MakeSliceLenOutOfRange), w).
Proof.
  intros Hn. unfold make.
  destruct (Z.ltb_spec n 0), (Z.ltb_spec GoInt.max_alloc n); (lia || reflexivity).
Qed.

Lemma run_Ptr data w : (0 < length data)%nat -> Ptr data w = (Ret data, w).
Proof. destruct data; cbn; [lia|reflexivity]. Qed.

Lemma run_Ptr_nonempty data w : data <> [] -> Ptr data w = (Ret data, w).
Proof. by destruct data. Qed.

(** ** Reading pixels back *)

Lemma length_overwrite buf data : length (gl.overwrite buf data) = length buf.
Proof.
  unfold gl.overwrite. rewrite length_take, length_app, length_drop. lia.
Qed.

Lemma len_readback tx w :
  0 <= width tx * height tx * 4 ->
  GoInt.len (readback tx w) = width tx * height tx * 4.
Proof.
  intros. unfold GoInt.len, readback.
  rewrite length_overwrite, length_replicate. lia.
Qed.

(** [Pixels] up to the loop. *)
Lemma Pixels_unfold t tx x y w h wd :
  heap wd !! t = Some tx ->
  width tx *i height tx *i 4 = width tx * height tx * 4 ->
  0 < width tx * height tx * 4 <= GoInt.max_alloc ->
  0 <= w *i h *i 4 <= GoInt.max_alloc ->
  Pixels t x y w h wd
  = copyRows (width tx) x y w (readback tx wd) (seqZ 0 h)
      (replicate (Z.to_nat (w *i h *i 4)) zero_byte)
      (logged (gl.CGetTexImage gl.TEXTURE_2D 0 gl.RGBA gl.UNSIGNED_BYTE) wd).
Proof.
  intros Ht EN HN Hsub. unfold Pixels.
  rewrite (run_bind_ret _ _ _ _ _ (run_load _ _ _ Ht)).
  rewrite EN. erewrite run_bind_ret by (apply run_make; lia).
  erewrite run_bind_ret by (apply run_Ptr; rewrite length_replicate; lia).
  rewrite run_bind. cbn [glget gl.GetTexImage].
  rewrite (run_bind_ret _ _ _ _ _ (run_make _ _ Hsub)).
  reflexivity.
Qed.

(** When no index expression overflows and every row lies inside the
    image buffer, [Pixels] returns the rows it was asked for. *)
Lemma Pixels_rows t tx x y w h wd :
  heap wd !! t = Some tx ->
  width tx *i height tx *i 4 = width tx * height tx * 4 ->
  0 < width tx * height tx * 4 <= GoInt.max_alloc ->
  w *i h *i 4 = w * h * 4 ->
  w * h * 4 <= GoInt.max_alloc ->
  0 <= w -> 0 <= h ->
  (forall i, 0 <= i < h ->
     row_exact (width tx) x y w i
     /\ 0 <= rowLo (width tx) x y i
     /\ rowHi (width tx) x y w i <= width tx * height tx * 4) ->
  exists out,
    Pixels t x y w h wd
    = (Ret out, logged (gl.CGetTexImage gl.TEXTURE_2D 0 gl.RGBA gl.UNSIGNED_BYTE) wd)
    /\ GoInt.len out = w * h * 4
    /\ forall i, 0 <= i < h ->
         sub out (i * w * 4) ((i + 1) * w * 4)
         = sub (readback tx wd) (rowLo (width tx) x y i) (rowHi (width tx) x y w i).
Proof.
  intros Ht EN HN Ewh Hmax Hw Hh Hrows.
  assert (Hwh : 0 <= w * h * 4)
    by (assert (0 <= w * h) by (apply Z.mul_nonneg_nonneg; lia); lia).
  rewrite (Pixels_unfold t tx) by (auto; lia). rewrite Ewh.
  destruct (copyRows_ok (width tx) x y w (readback tx wd) h (Z.to_nat h) 0
              (replicate (Z.to_nat (w * h * 4)) zero_byte)
              (logged (gl.CGetTexImage gl.TEXTURE_2D 0 gl.RGBA gl.UNSIGNED_BYTE) wd))
    as (out & Hrun & Hlen & _ & Hout); try lia.
  - unfold GoInt.len. rewrite length_replicate. lia.
  - intros i Hi. rewrite len_readback by lia. apply Hrows. lia.
  - rewrite Z2Nat.id in Hrun, Hout by lia.
    exists out. split; [exact Hrun|]. split.
    + unfold GoInt.len. rewrite Hlen, length_replicate. lia.
    + intros i Hi. apply Hout. lia.
Qed.

Ltac int_exact lem a b :=
  rewrite (lem a b)
    by (unfold GoInt.in_range, GoInt.min_int, GoInt.max_int, GoInt.max_alloc in *;
        lia).

Lemma inside_sizes tx x y w h :
  well_sized tx -> inside tx x y w h ->
  width tx *i height tx *i 4 = width tx * height tx * 4
  /\ 0 < width tx * height tx * 4 <= GoInt.max_alloc
  /\ w *i h *i 4 = w * h * 4
  /\ w * h * 4 <= GoInt.max_alloc.
Proof.
  intros (HW & HH & HN) (Hx & Hy & Hw & Hh & Hxw & Hyh).
  assert (0 < width tx * height tx) by (apply Z.mul_pos_pos; lia).
  assert (0 <= w * h) by (apply Z.mul_nonneg_nonneg; lia).
  assert (w * h <= width tx * height tx)
    by (apply Z.mul_le_mono_nonneg; lia).
  int_exact mul_exact (width tx) (height tx).
  int_exact mul_exact (width tx * height tx) 4.
  int_exact mul_exact w h.
  int_exact mul_exact (w * h) 4.
  lia.
Qed.

Lemma inside_row tx x y w h i :
  well_sized tx -> inside tx x y w h -> 0 <= i < h ->
  row_exact (width tx) x y w i
  /\ 0 <= rowLo (width tx) x y i
  /\ rowHi (width tx) x y w i <= width tx * height tx * 4.
Proof.
  intros (HW & HH & HN) (Hx & Hy & Hw & Hh & Hxw & Hyh) Hi.
  set (W := width tx) in *. set (Ht := height tx) in *.
  assert (Ht * 1 <= Ht * W) by (apply Z.mul_le_mono_nonneg_l; lia).
  assert (1 * W <= Ht * W) by (apply Z.mul_le_mono_nonneg_r; lia).
  assert (0 <= (i + y) * W) by (apply Z.mul_nonneg_nonneg; lia).
  assert ((i + y) * W <= (Ht - 1) * W)
    by (apply Z.mul_le_mono_nonneg_r; lia).
  assert (0 <= i * w) by (apply Z.mul_nonneg_nonneg; lia).
  assert ((i + 1) * w <= Ht * W) by (apply Z.mul_le_mono_nonneg; lia).
  unfold row_exact, rowLo, rowHi.
  int_exact add_exact i y.
  int_exact mul_exact (i + y) W.
  int_exact mul_exact ((i + y) * W) 4.
  int_exact mul_exact x 4.
  int_exact add_exact ((i + y) * W * 4) (x * 4).
  int_exact add_exact x w.
  int_exact mul_exact (x + w) 4.
  int_exact add_exact ((i + y) * W * 4) ((x + w) * 4).
  int_exact mul_exact i w.
  int_exact mul_exact (i * w) 4.
  int_exact add_exact i 1.
  int_exact mul_exact (i + 1) w.
  int_exact mul_exact ((i + 1) * w) 4.
  repeat split; lia.
Qed.

(** C2.  For a rectangle inside the image, [Pixels] first has the driver
    read the whole image into a buffer of width*height*4 bytes, then
    returns a new buffer of exactly w*h*4 bytes whose row [i] is the
    byte range [(y+i)*width*4 + x*4, (y+i)*width*4 + (x+w)*4) of that
    full readback.  The texture has positive dimensions and an image
    within the allocation limit, without which the full-image buffer
    does not exist and the call panics before reading. *)
Theorem Pixels_returns_subrectangle t tx x y w h wd :
  heap wd !! t = Some tx ->
  well_sized tx ->
  inside tx x y w h ->
  exists out,
    Pixels t x y w h wd
    = (Ret out, logged (gl.CGetTexImage gl.TEXTURE_2D 0 gl.RGBA gl.UNSIGNED_BYTE) wd)
    /\ GoInt.len (readback tx wd) = width tx * height tx * 4
    /\ GoInt.len out = w * h * 4
    /\ forall i, 0 <= i < h ->
         sub out (i * w * 4) ((i + 1) * w * 4)
         = sub (readback tx wd)
               ((y + i) * width tx * 4 + x * 4)
               ((y + i) * width tx * 4 + (x + w) * 4).
Proof.
  intros Ht Hsz Hin.
  destruct (inside_sizes tx x y w h Hsz Hin) as (EN & HN & Ewh & Hmax).
  destruct Hin as (Hx & Hy & Hw & Hh & Hxw & Hyh).
  destruct (Pixels_rows t tx x y w h wd Ht EN HN Ewh Hmax Hw Hh)
    as (out & Hrun & Hlen & Hrows).
  { intros i Hi. apply (inside_row tx x y w h i); [done|repeat split; lia|done]. }
  exists out. split; [exact Hrun|]. split; [apply len_readback; lia|].
  split; [exact Hlen|].
  intros i Hi. rewrite (Hrows i Hi). unfold rowLo, rowHi.
  by rewrite (Z.add_comm y i).
Qed.

(** The second row of the 2x2 example texture. *)
Lemma Pixels_returns_subrectangle_witness :
  exists out,
    fst (Pixels 0%nat 0 1 2 1 (example_world 0)) = Ret out
    /\ GoInt.len out = 8
    /\ sub out 0 8 = sub (readback (example_texture 0) (example_world 0)) 8 16.
Proof.
  destruct (Pixels_returns_subrectangle 0%nat (example_texture 0) 0 1 2 1
              (example_world 0) eq_refl)
    as (out & Hrun & _ & Hlen & Hrows).
  - unfold well_sized, GoInt.max_alloc. cbn. lia.
  - unfold inside. cbn. lia.
  - exists out. rewrite Hrun. split; [reflexivity|]. split; [exact Hlen|].
    exact (Hrows 0 ltac:(lia)).
Defined.

(** ** Rectangles that leave the image *)

Lemma mul_bound a b A B :
  - A <= a <= A -> - B <= b <= B -> - (A * B) <= a * b <= A * B.
Proof.
  intros Ha Hb. apply Z.abs_le. rewrite Z.abs_mul.
  apply Z.mul_le_mono_nonneg; try apply Z.abs_nonneg; apply Z.abs_le; lia.
Qed.

Lemma small_sizes W Ht w h :
  0 <= W <= 2 ^ 29 -> 0 <= Ht <= 2 ^ 29 -> small w -> small h ->
  W *i Ht *i 4 = W * Ht * 4 /\ 0 <= W * Ht * 4 /\ w *i h *i 4 = w * h * 4.
Proof.
  unfold small. intros HW HH Hw Hh.
  pose proof (mul_bound W Ht (2 ^ 29) (2 ^ 29) ltac:(lia) ltac:(lia)).
  pose proof (mul_bound w h (2 ^ 29) (2 ^ 29) Hw Hh).
  assert (0 <= W * Ht) by (apply Z.mul_nonneg_nonneg; lia).
  int_exact mul_exact W Ht. int_exact mul_exact (W * Ht) 4.
  int_exact mul_exact w h. int_exact mul_exact (w * h) 4.
  lia.
Qed.

Lemma small_row W x y w h i :
  0 <= W <= 2 ^ 29 -> small x -> small y -> small w -> small h ->
  0 <= i < h ->
  row_exact W x y w i.
Proof.
  unfold small. intros HW Hx Hy Hw Hh Hi.
  pose proof (mul_bound (i + y) W (2 ^ 30) (2 ^ 29) ltac:(lia) ltac:(lia)).
  pose proof (mul_bound i w (2 ^ 29) (2 ^ 29) ltac:(lia) ltac:(lia)).
  pose proof (mul_bound (i + 1) w (2 ^ 30) (2 ^ 29) ltac:(lia) ltac:(lia)).
  unfold row_exact, rowLo, rowHi.
  int_exact add_exact i y.
  int_exact mul_exact (i + y) W.
  int_exact mul_exact ((i + y) * W) 4.
  int_exact mul_exact x 4.
  int_exact add_exact ((i + y) * W * 4) (x * 4).
  int_exact add_exact x w.
  int_exact mul_exact (x + w) 4.
  int_exact add_exact ((i + y) * W * 4) ((x + w) * 4).
  int_exact mul_exact i w.
  int_exact mul_exact (i * w) 4.
  int_exact add_exact i 1.
  int_exact mul_exact (i + 1) w.
  int_exact mul_exact ((i + 1) * w) 4.
  repeat split; lia.
Qed.

(** [Pixels] when the result cannot be allocated. *)
Lemma Pixels_bad_size t tx x y w h wd :
  heap wd !! t = Some tx ->
  width tx *i height tx *i 4 = width tx * height tx * 4 ->
  0 < width tx * height tx * 4 <= GoInt.max_alloc ->
  w *i h *i 4 < 0 \/ GoInt.max_alloc < w *i h *i 4 ->
  fst (Pixels t x y w h wd) = Fail (RuntimeError MakeSliceLenOutOfRange).
Proof.
  intros Ht EN HN Hsub. unfold Pixels.
  rewrite (run_bind_ret _ _ _ _ _ (run_load _ _ _ Ht)).
  rewrite EN. erewrite run_bind_ret by (apply run_make; lia).
  erewrite run_bind_ret by (apply run_Ptr; rewrite length_replicate; lia).
  rewrite run_bind. cbn [glget gl.GetTexImage].
  by rewrite (run_bind_fail _ _ _ _ _ (run_make_fail _ _ Hsub)).
Qed.

(** [Pixels] on a texture without an image: of zero area, or larger than
    [make] allocates.  Every call panics before the readback. *)
Lemma Pixels_no_image t tx x y w h wd :
  heap wd !! t = Some tx ->
  width tx *i height tx *i 4 <= 0 \/ GoInt.max_alloc < width tx *i height tx *i 4 ->
  exists e, Pixels t x y w h wd = (Fail (RuntimeError e), wd).
Proof.
  intros Ht HN. unfold Pixels.
  rewrite (run_bind_ret _ _ _ _ _ (run_load _ _ _ Ht)).
  destruct (decide (width tx *i height tx *i 4 = 0)) as [E0|Hne0].
  - rewrite E0. erewrite run_bind_ret
      by (apply run_make; unfold GoInt.max_alloc; lia).
    eexists. reflexivity.
  - assert (Hbad : width tx *i height tx *i 4 < 0
                   \/ GoInt.max_alloc < width tx *i height tx *i 4) by lia.
    eexists. by rewrite (run_bind_fail _ _ _ _ _ (run_make_fail _ wd Hbad)).
Qed.

(** C10, as the code has it.  [Pixels] validates nothing, and what makes
    it panic is the allocation of the result and the flat buffer, not
    the rectangle: on a texture with positive dimensions and an image
    within the allocation limit, the call panics exactly when the result
    size w*h*4 is negative or beyond the allocation limit or, for h > 0,
    the first row starts before byte 0 or the last row ends after byte
    width*height*4 of the full image.  (Stated for coordinates and
    dimensions of magnitude at most 2^29, where no index overflows.) *)
Theorem Pixels_panics_iff_rows_leave_buffer t tx x y w h wd :
  heap wd !! t = Some tx ->
  0 < width tx <= 2 ^ 29 -> 0 < height tx <= 2 ^ 29 ->
  width tx * height tx * 4 <= GoInt.max_alloc ->
  small x -> small y -> small w -> small h ->
  is_fail (fst (Pixels t x y w h wd)) = true
  <-> (w * h * 4 < 0
       \/ GoInt.max_alloc < w * h * 4
       \/ (0 < h
           /\ (rowLo (width tx) x y 0 < 0
               \/ width tx * height tx * 4 < rowHi (width tx) x y w (h - 1)))).
Proof.
  intros Ht HW HH Hlim Hx Hy Hw Hh.
  destruct (small_sizes (width tx) (height tx) w h ltac:(lia) ltac:(lia) Hw Hh)
    as (EN & _ & Ewh).
  assert (HN : 0 < width tx * height tx * 4 <= GoInt.max_alloc).
  { assert (0 < width tx * height tx) by (apply Z.mul_pos_pos; lia). lia. }
  destruct (Z.lt_ge_cases (w * h * 4) 0) as [Hneg|Hpos].
  { rewrite (Pixels_bad_size t tx) by (auto; lia). cbn. tauto. }
  destruct (Z.lt_ge_cases GoInt.max_alloc (w * h * 4)) as [Hbig|Hfit].
  { rewrite (Pixels_bad_size t tx) by (auto; lia). cbn. tauto. }
  rewrite (Pixels_unfold t tx) by (auto; lia).
  destruct (Z.le_gt_cases h 0) as [Hh0|Hh0].
  { unfold seqZ. replace (Z.to_nat h) with 0%nat by lia. cbn. split; [done|lia]. }
  assert (Hw0 : 0 <= w) by nia.
  assert (Hrow : forall i, 0 <= i < h -> row_exact (width tx) x y w i)
    by (intros; apply (small_row _ _ _ _ h); (done || lia)).
  set (wd' := logged _ wd). set (subP := replicate _ _).
  destruct (Z.lt_ge_cases (rowLo (width tx) x y 0) 0) as [Hlo|Hlo].
  { split; [lia|intros _].
    apply (copyRows_fail _ _ _ _ _ _ _ _ 0); [apply elem_of_seqZ; lia|].
    destruct (Hrow 0 ltac:(lia)) as (-> & -> & _).
    apply slice_ok_false. lia. }
  destruct (Z.lt_ge_cases (width tx * height tx * 4)
              (rowHi (width tx) x y w (h - 1))) as [Hhi|Hhi].
  { split; [lia|intros _].
    apply (copyRows_fail _ _ _ _ _ _ _ _ (h - 1)); [apply elem_of_seqZ; lia|].
    destruct (Hrow (h - 1) ltac:(lia)) as (-> & -> & _).
    apply slice_ok_false. rewrite len_readback by lia. lia. }
  destruct (Pixels_rows t tx x y w h wd Ht EN HN Ewh ltac:(lia) Hw0 ltac:(lia))
    as (out & Hrun & _).
  { intros i Hi. split; [by apply Hrow|].
    assert (0 <= i * width tx) by (apply Z.mul_nonneg_nonneg; lia).
    assert (i * width tx <= (h - 1) * width tx)
      by (apply Z.mul_le_mono_nonneg_r; lia).
    unfold rowLo, rowHi in *. lia. }
  rewrite (Pixels_unfold t tx) in Hrun by (auto; lia).
  fold wd' subP in Hrun. rewrite Hrun. cbn. split; [done|lia].
Qed.

(** C10, counterexample.  On the 2x2 example texture the rectangle
    x=1, y=0, w=2, h=1 overhangs the right edge, yet the call returns:
    its one row is bytes 4..11 of the readback, running into row 1. *)
Lemma Pixels_overhang_returns :
  ~ inside (example_texture 0) 1 0 2 1
  /\ fst (Pixels 0%nat 1 0 2 1 (example_world 0))
     = Ret [Byte.x04; Byte.x05; Byte.x06; Byte.x07;
            Byte.x08; Byte.x09; Byte.x0a; Byte.x0b].
Proof.
  split; [|vm_compute; reflexivity].
  unfold inside. cbn. lia.
Qed.

(** On the 2x2 example texture a row that starts at byte 12 and ends at
    byte 20 leaves the 16-byte buffer. *)
Lemma Pixels_panics_iff_rows_leave_buffer_witness :
  is_fail (fst (Pixels 0%nat 1 1 2 1 (example_world 0))) = true.
Proof.
  refine (proj2 (Pixels_panics_iff_rows_leave_buffer 0%nat (example_texture 0)
                   1 1 2 1 (example_world 0) eq_refl _ _ _ _ _ _ _) _);
    unfold small, rowLo, rowHi, GoInt.max_alloc; cbn; lia.
Defined.

(** ** Stepping through a method *)

Lemma run_update t tx f w :
  heap w !! t = Some tx ->
  update t f w
  = (Ret tt, {| glctx := glctx w; heap := <[t := f tx]> (heap w);
                finalizers := finalizers w |}).
Proof. unfold update. by intros ->. Qed.

Lemma lookup_last (h0 : list Texture) tx : (h0 ++ [tx]) !! length h0 = Some tx.
Proof. by apply list_lookup_middle. Qed.

Lemma insert_last (h0 : list Texture) tx tx' :
  <[length h0 := tx']> (h0 ++ [tx]) = h0 ++ [tx'].
Proof.
  rewrite insert_app_r_alt by lia. by rewrite Nat.sub_diag.
Qed.

(** ** Writing pixels *)

Lemma SetPixels_mismatch t x y w h pixels wd :
  GoInt.len pixels <> w *i h *i 4 ->
  SetPixels t x y w h pixels wd = (Fail (PanicMsg size_message), wd).
Proof.
  intros Hne. unfold SetPixels.
  destruct (Z.eqb_spec (GoInt.len pixels) (w *i h *i 4)); [done|reflexivity].
Qed.

Lemma SetPixels_match t tx x y w h pixels wd :
  heap wd !! t = Some tx ->
  pixels <> [] ->
  GoInt.len pixels = w *i h *i 4 ->
  SetPixels t x y w h pixels wd
  = (Ret tt, with_calls wd (upload_calls (mipmapLevels tx) x y w h pixels)).
Proof.
  intros Ht Hne Heq. unfold SetPixels, upload_calls.
  rewrite (proj2 (Z.eqb_eq _ _) Heq). cbn [negb].
  rewrite (run_bind_ret _ _ _ _ _ (run_Ptr_nonempty pixels wd Hne)).
  rewrite run_bind. cbn [glcall glget gl.TexSubImage2D].
  erewrite run_bind_ret by (apply run_load; exact Ht).
  destruct wd as [[d b p cs] hp fin].
  destruct (mipmapLevels tx >? 0);
    unfold with_calls, gl.GenerateMipmap, gl.TexSubImage2D, gl.log, mret, M_ret;
    cbn; by rewrite <- ?app_assoc.
Qed.

Lemma SetPixels_empty t x y w h wd :
  0 = w *i h *i 4 ->
  SetPixels t x y w h [] wd = (Fail (RuntimeError EmptySlicePtr), wd).
Proof.
  intros Heq. unfold SetPixels. change (GoInt.len (@nil Byte.byte)) with 0.
  by rewrite (proj2 (Z.eqb_eq _ _) Heq).
Qed.

(** C5, counterexample.  An empty buffer for an empty rectangle has the
    right length, 0, and the call fails all the same: [gl.Ptr] panics on
    the empty slice before the upload. *)
Lemma SetPixels_empty_buffer_panics :
  GoInt.len (@nil Byte.byte) = 0 *i 0 *i 4
  /\ SetPixels 0%nat 0 0 0 0 [] (example_world 0)
     = (Fail (RuntimeError EmptySlicePtr), example_world 0).
Proof. split; reflexivity. Qed.

(** C5, as the code has it.  The size-mismatch panic of [SetPixels] is
    raised exactly when the byte length of [pixels] differs from w*h*4
    (the product as Go computes it, which is the exact product whenever
    that fits an int), before any driver call.  With a non-empty buffer
    that is the only failure: the call fails exactly when the length
    differs, and when the lengths agree the sub-rectangle is uploaded
    and the call returns normally.  With an empty buffer the call fails
    whatever the rectangle, in [gl.Ptr] when the length 0 is the right
    one, and leaves the world as it was. *)
Theorem SetPixels_fails_iff_size_mismatch t tx x y w h pixels wd :
  heap wd !! t = Some tx ->
  (fst (SetPixels t x y w h pixels wd) = Fail (PanicMsg size_message)
   <-> GoInt.len pixels <> w *i h *i 4)
  /\ (GoInt.len pixels <> w *i h *i 4 ->
      exists msg, SetPixels t x y w h pixels wd = (Fail (PanicMsg msg), wd))
  /\ (pixels <> [] ->
      (is_fail (fst (SetPixels t x y w h pixels wd)) = true
       <-> GoInt.len pixels <> w *i h *i 4))
  /\ (pixels <> [] ->
      GoInt.len pixels = w *i h *i 4 ->
      exists more,
        SetPixels t x y w h pixels wd
        = (Ret tt,
           with_calls wd
             (gl.CTexSubImage2D gl.TEXTURE_2D 0
                (GoInt.int32 x) (GoInt.int32 y) (GoInt.int32 w) (GoInt.int32 h)
                gl.RGBA gl.UNSIGNED_BYTE pixels :: more)))
  /\ (pixels = [] ->
      exists f,
        SetPixels t x y w h pixels wd = (Fail f, wd)
        /\ (GoInt.len pixels = w *i h *i 4 -> f = RuntimeError EmptySlicePtr))
  /\ (GoInt.in_range (w * h) -> GoInt.in_range (w * h * 4) ->
      w *i h *i 4 = w * h * 4).
Proof.
  intros Ht. split; [|split; [|split; [|split; [|split]]]].
  - split; [|intros Hne; by rewrite SetPixels_mismatch].
    intros Hfail Heq. destruct pixels as [|b0 rest].
    + by rewrite SetPixels_empty in Hfail.
    + by rewrite (SetPixels_match t tx) in Hfail.
  - intros Hne. exists size_message. by apply SetPixels_mismatch.
  - intros Hne. split; [|intros Hlen; by rewrite SetPixels_mismatch].
    intros Hfail Heq. by rewrite (SetPixels_match t tx) in Hfail.
  - intros Hne Heq. eexists. by rewrite (SetPixels_match t tx).
  - intros ->. destruct (decide (0 = w *i h *i 4)) as [Heq|Hne].
    + eexists. split; [by apply SetPixels_empty|done].
    + eexists. split; [by apply SetPixels_mismatch|done].
  - intros H1 H2. by rewrite (mul_exact w h), mul_exact.
Qed.

(** 60 bytes for a 4x4 rectangle fail; 4 bytes for a 1x1 rectangle do not. *)
Lemma SetPixels_fails_iff_size_mismatch_witness :
  is_fail (fst (SetPixels 0%nat 0 0 4 4 (replicate 60 Byte.x01) (example_world 0))) = true
  /\ is_fail (fst (SetPixels 0%nat 0 0 1 1 (replicate 4 Byte.x01) (example_world 0))) = false.
Proof.
  split.
  - destruct (SetPixels_fails_iff_size_mismatch 0%nat (example_texture 0) 0 0 4 4
                (replicate 60 Byte.x01) (example_world 0) eq_refl)
      as (_ & _ & Hiff & _).
    apply (Hiff ltac:(discriminate)). vm_compute. discriminate.
  - destruct (SetPixels_fails_iff_size_mismatch 0%nat (example_texture 0) 0 0 1 1
                (replicate 4 Byte.x01) (example_world 0) eq_refl)
      as (_ & _ & _ & Hok & _).
    destruct (Hok ltac:(discriminate) eq_refl) as (more & ->). reflexivity.
Defined.

(** C6, counterexample.  A 60-byte buffer for a 4x4 rectangle fails with
    a message that contains neither 64 nor 60. *)
Lemma SetPixels_message_omits_counts :
  exists msg,
    fst (SetPixels 0%nat 0 0 4 4 (replicate 60 Byte.x01) (example_world 0))
    = Fail (PanicMsg msg)
    /\ names_counts msg 64 60 = false.
Proof. eexists. split; reflexivity. Qed.

(** C6, as the code has it.  Every size-mismatch failure of [SetPixels]
    carries the same fixed text, "set pixels: wrong number of pixels";
    the text has no digit in it, so it names neither byte count. *)
Theorem SetPixels_failure_message_fixed t x y w h pixels wd :
  GoInt.len pixels <> w *i h *i 4 ->
  fst (SetPixels t x y w h pixels wd)
  = Fail (PanicMsg "set pixels: wrong number of pixels")
  /\ has_digit "set pixels: wrong number of pixels" = false.
Proof.
  intros Hne. by rewrite SetPixels_mismatch.
Qed.

(** The message for 60 bytes in place of 64. *)
Lemma SetPixels_failure_message_fixed_witness :
  fst (SetPixels 0%nat 0 0 4 4 (replicate 60 Byte.x01) (example_world 0))
  = Fail (PanicMsg "set pixels: wrong number of pixels").
Proof.
  apply (SetPixels_failure_message_fixed 0%nat 0 0 4 4 (replicate 60 Byte.x01)
           (example_world 0)).
  vm_compute. discriminate.
Defined.

(** ** Sampling parameters *)

Lemma SetSmooth_run t tx b w :
  heap w !! t = Some tx ->
  SetSmooth t b w = (Ret tt, smoothed t tx b w).
Proof.
  intros Ht. unfold SetSmooth.
  assert (Hlt : (t < length (heap w))%nat) by by eapply lookup_lt_Some.
  erewrite run_bind_ret by (apply run_update; exact Ht).
  destruct b.
  all: erewrite run_bind_ret
    by (apply run_load; cbn [heap]; by apply list_lookup_insert_eq).
  all: cbn [set_smooth mipmapLevels]; unfold smoothed, min_filter, mag_filter.
  all: destruct (mipmapLevels tx >? 0); reflexivity.
Qed.

Lemma SetWrap_run t wrap w : SetWrap t wrap w = (Ret tt, wrapped wrap w).
Proof. reflexivity. Qed.

Lemma texParams_TexParameteri_eq pname v g :
  gl.texParams (gl.TexParameteri gl.TEXTURE_2D pname v g)
  !! (gl.binding2D g, pname) = Some v.
Proof. cbn. apply lookup_insert_eq. Qed.

Lemma texParams_TexParameteri_ne pname v g k :
  k <> (gl.binding2D g, pname) ->
  gl.texParams (gl.TexParameteri gl.TEXTURE_2D pname v g) !! k
  = gl.texParams g !! k.
Proof. intros. cbn. by apply lookup_insert_ne. Qed.

Lemma binding2D_TexParameteri target pname v g :
  gl.binding2D (gl.TexParameteri target pname v g) = gl.binding2D g.
Proof. unfold gl.TexParameteri. by destruct (_ =? _). Qed.

(** What [SetSmooth] leaves in the sampler state of the bound texture. *)
Lemma SetSmooth_sets_filters t tx b w :
  heap w !! t = Some tx ->
  exists w',
    SetSmooth t b w = (Ret tt, w')
    /\ gl.texParams (glctx w') !! (gl.binding2D (glctx w), gl.TEXTURE_MAG_FILTER)
       = Some (mag_filter b)
    /\ gl.texParams (glctx w') !! (gl.binding2D (glctx w), gl.TEXTURE_MIN_FILTER)
       = Some (min_filter b (mipmapLevels tx))
    /\ smooth <$> heap w' !! t = Some b.
Proof.
  intros Ht. exists (smoothed t tx b w). split; [by apply SetSmooth_run|].
  assert (Hlt : (t < length (heap w))%nat) by by eapply lookup_lt_Some.
  unfold smoothed. cbn [glctx heap]. repeat split.
  - rewrite <- (binding2D_TexParameteri gl.TEXTURE_2D gl.TEXTURE_MIN_FILTER
                  (min_filter b (mipmapLevels tx)) (glctx w)).
    apply texParams_TexParameteri_eq.
  - rewrite texParams_TexParameteri_ne
      by (rewrite binding2D_TexParameteri; intros [=]).
    apply texParams_TexParameteri_eq.
  - by rewrite list_lookup_insert_eq.
Qed.

(** C3 at the failing input.  On a texture with one mipmap level,
    [SetSmooth(false)] sets the magnification filter to nearest, but the
    minification filter to LINEAR_MIPMAP_NEAREST (linear filtering
    inside the nearest mip level), which is not the
    NEAREST_MIPMAP_NEAREST the claim describes. *)
Theorem SetSmooth_pixely_mipmap_min_filter :
  let w' := snd (SetSmooth 0%nat false (example_world 1)) in
  gl.texParams (glctx w') !! (1, gl.TEXTURE_MAG_FILTER) = Some gl.NEAREST
  /\ gl.texParams (glctx w') !! (1, gl.TEXTURE_MIN_FILTER)
     = Some gl.LINEAR_MIPMAP_NEAREST
  /\ gl.LINEAR_MIPMAP_NEAREST <> gl.NEAREST_MIPMAP_NEAREST.
Proof.
  cbv zeta. split; [|split]; [vm_compute; reflexivity ..|discriminate].
Qed.

(** ** Begin and End *)

Lemma world_eq (w w' : World) :
  gl.driver (glctx w) = gl.driver (glctx w') ->
  gl.binding2D (glctx w) = gl.binding2D (glctx w') ->
  gl.texParams (glctx w) = gl.texParams (glctx w') ->
  gl.calls (glctx w) = gl.calls (glctx w') ->
  heap w = heap w' -> finalizers w = finalizers w' ->
  w = w'.
Proof.
  destruct w as [[] ? ?], w' as [[] ? ?]. cbn. by intros -> -> -> -> -> ->.
Qed.

Lemma with_calls_nil w : with_calls w [] = w.
Proof. apply world_eq; try reflexivity. cbn. apply app_nil_r. Qed.

Lemma with_calls_app w cs cs' :
  with_calls (with_calls w cs) cs' = with_calls w (cs ++ cs').
Proof. apply world_eq; try reflexivity. cbn. by rewrite app_assoc. Qed.

Lemma set_prev_set_prev p q tx : set_prev p (set_prev q tx) = set_prev p tx.
Proof. reflexivity. Qed.

Lemma set_prev_id tx : set_prev (prev (tex tx)) tx = tx.
Proof. by destruct tx as [[] ? ? ? ?]. Qed.

Lemma is_texture_set_prev p tx : is_texture tx -> is_texture (set_prev p tx).
Proof. by intros []. Qed.

Lemma Begin_run t tx w :
  heap w !! t = Some tx -> is_texture tx ->
  Begin t w = (Ret tt, begun t tx w).
Proof.
  intros Ht [Hloc Hbind]. unfold Begin, bind.
  erewrite run_bind_ret by (by apply run_load).
  rewrite run_bind. cbn [glget gl.GetIntegerv]. rewrite Hloc, Z.eqb_refl.
  erewrite run_bind_ret by (by apply run_update).
  unfold glcall, glget, begun. cbn. by rewrite Hbind.
Qed.

Lemma End_run t tx p rest w :
  heap w !! t = Some tx -> is_texture tx -> prev (tex tx) = p :: rest ->
  End t w
  = (Ret tt, {| glctx := gl.BindTexture gl.TEXTURE_2D p (glctx w);
                heap := <[t := set_prev rest tx]> (heap w);
                finalizers := finalizers w |}).
Proof.
  intros Ht [Hloc Hbind] Hprev. unfold End, restore.
  erewrite run_bind_ret by (by apply run_load).
  rewrite Hprev, run_bind. cbn [glcall glget]. rewrite Hbind.
  by erewrite run_update by exact Ht.
Qed.

(** [End] right after the body of a scope opened by [Begin] puts the
    world back, up to the calls logged. *)
Lemma End_after_begun t tx w cs :
  heap w !! t = Some tx -> is_texture tx ->
  End t (with_calls (begun t tx w) cs)
  = (Ret tt,
     with_calls w
       ([gl.CGetIntegerv gl.TEXTURE_BINDING_2D;
         gl.CBindTexture gl.TEXTURE_2D (obj (tex tx))]
        ++ cs ++ [gl.CBindTexture gl.TEXTURE_2D (gl.binding2D (glctx w))])).
Proof.
  intros Ht Htx.
  assert (Hlt : (t < length (heap w))%nat) by by eapply lookup_lt_Some.
  erewrite End_run; [| |by apply is_texture_set_prev|reflexivity];
    [|cbn [with_calls begun heap]; by apply list_lookup_insert_eq].
  f_equal. apply world_eq; cbn [with_calls begun heap glctx finalizers];
    try reflexivity.
  - cbn. by rewrite <- !app_assoc.
  - rewrite list_insert_insert_eq, set_prev_set_prev, set_prev_id.
    by apply list_insert_id.
Qed.

Lemma run_scope_app os os' w :
  run_scope (os ++ os') w = (run_scope os ≫= fun _ => run_scope os') w.
Proof.
  revert w. induction os as [|o os IH]; intros w; [reflexivity|].
  cbn [app run_scope]. rewrite !run_bind.
  destruct (exec_scope o w) as [[[]|e] w1]; [|reflexivity].
  by rewrite IH, run_bind.
Qed.

(** Properly nested scopes put the world back, up to the calls logged. *)
Lemma nested_run os :
  nested os ->
  forall w, scopes_ok w os ->
    exists cs, run_scope os w = (Ret tt, with_calls w cs).
Proof.
  induction 1 as [|t body rest _ IHbody _ IHrest]; intros w [Hheap Hlocs].
  - exists []. by rewrite with_calls_nil.
  - apply Forall_cons in Hlocs as [Ht Hlocs].
    apply Forall_app in Hlocs as [Hbody Hrest].
    apply Forall_cons in Hrest as [_ Hrest].
    destruct (lookup_lt_is_Some_2 _ _ Ht) as [tx Htx].
    assert (Hok : is_texture tx) by by eapply Forall_lookup_1.
    destruct (IHbody (begun t tx w)) as [cs1 Hcs1].
    { split; cbn [begun heap].
      - apply Forall_insert; [done|by apply is_texture_set_prev].
      - by rewrite length_insert. }
    destruct (IHrest (with_calls w
                ([gl.CGetIntegerv gl.TEXTURE_BINDING_2D;
                  gl.CBindTexture gl.TEXTURE_2D (obj (tex tx))]
                 ++ cs1 ++ [gl.CBindTexture gl.TEXTURE_2D (gl.binding2D (glctx w))])))
      as [cs2 Hcs2]; [by split|].
    eexists. cbn [run_scope exec_scope].
    erewrite run_bind_ret by (by apply Begin_run).
    replace (body ++ OpEnd t :: rest) with (body ++ [OpEnd t] ++ rest) by done.
    rewrite run_scope_app. erewrite run_bind_ret by exact Hcs1.
    cbn [app run_scope exec_scope].
    erewrite run_bind_ret by (by apply End_after_begun).
    rewrite Hcs2, with_calls_app. reflexivity.
Qed.

(** ** Construction *)

Lemma NewTexture_run width height levels smooth pixels w :
  pixels <> [] ->
  NewTexture width height levels smooth pixels w
  = (Ret (length (heap w)), constructed width height levels smooth pixels w).
Proof.
  intros Hne. unfold NewTexture.
  rewrite run_bind. cbn [new].
  rewrite run_bind. cbn [glget gl.GenTextures1 glctx heap finalizers].
  erewrite run_bind_ret by (apply run_update; cbn [heap]; apply lookup_last).
  cbn [glctx heap finalizers]. rewrite insert_last.
  erewrite run_bind_ret
    by (apply Begin_run; [cbn [heap]; apply lookup_last|by split]).
  unfold begun. cbn [glctx heap finalizers set_obj tex obj prev]. rewrite insert_last.
  unfold defer.
  match goal with
  | |- context [(?storage ≫= ?k) ?w1] =>
      assert (Hst : exists g, storage w1
                = (Ret tt, {| glctx := g; heap := heap w1; finalizers := finalizers w1 |})
                /\ gl.driver g = gl.driver (glctx w)
                /\ gl.binding2D g = gl.gen_name (gl.driver (glctx w)) (gl.calls (glctx w))
                /\ gl.texParams g = gl.texParams (glctx w)
                /\ gl.calls g = gl.calls (glctx w1)
                                ++ storage_calls width height levels pixels)
  end.
  { unfold storage_calls. destruct pixels as [|b0 rest]; [done|].
    destruct (levels >? 0); eexists; (split; [reflexivity|]);
      cbn; rewrite <- ?app_assoc; done. }
  destruct Hst as (g & Hrun & Hd & Hb & Hp & Hc).
  rewrite (run_bind_ret _ _ _ _ _ Hrun). cbn [heap finalizers].
  rewrite run_bind. cbn [glcall glget glctx heap finalizers].
  erewrite run_bind_ret
    by (apply SetSmooth_run; cbn [heap]; apply lookup_last).
  unfold smoothed. cbn [glctx heap finalizers]. rewrite insert_last.
  rewrite run_bind, SetWrap_run. unfold wrapped. cbn [glctx heap finalizers].
  rewrite run_bind. cbn [SetFinalizer glctx heap finalizers].
  unfold mret at 1, M_ret at 1.
  erewrite End_run;
    [|cbn [heap]; apply lookup_last|by split|reflexivity].
  cbn [glctx heap finalizers]. rewrite insert_last.
  f_equal. apply world_eq; cbn [constructed glctx heap finalizers]; try reflexivity.
  - cbn. exact Hd.
  - cbn. rewrite Hb, Hp. reflexivity.
  - cbn. rewrite Hc. cbn. rewrite <- !app_assoc. reflexivity.
Qed.

(** Construction from an empty buffer: [gl.Ptr] panics, and the deferred
    [End] runs before the panic leaves [NewTexture]. *)
Lemma NewTexture_run_empty width height levels smooth w :
  NewTexture width height levels smooth [] w
  = (Fail (RuntimeError EmptySlicePtr), aborted width height levels w).
Proof.
  unfold NewTexture.
  rewrite run_bind. cbn [new].
  rewrite run_bind. cbn [glget gl.GenTextures1 glctx heap finalizers].
  erewrite run_bind_ret by (apply run_update; cbn [heap]; apply lookup_last).
  cbn [glctx heap finalizers]. rewrite insert_last.
  erewrite run_bind_ret
    by (apply Begin_run; [cbn [heap]; apply lookup_last|by split]).
  unfold begun. cbn [glctx heap finalizers set_obj tex obj prev]. rewrite insert_last.
  unfold defer.
  match goal with
  | |- context [(?storage ≫= ?k) ?w1] =>
      assert (Hst : exists g, storage w1
                = (Fail (RuntimeError EmptySlicePtr),
                   {| glctx := g; heap := heap w1; finalizers := finalizers w1 |})
                /\ gl.driver g = gl.driver (glctx w)
                /\ gl.texParams g = gl.texParams (glctx w)
                /\ gl.calls g
                   = gl.calls (glctx w1)
                     ++ (if levels >? 0
                         then [gl.CTexStorage2D gl.TEXTURE_2D (GoInt.int32 levels)
                                 gl.RGBA8 (GoInt.int32 width) (GoInt.int32 height)]
                         else []))
  end.
  { destruct (levels >? 0); eexists; (split; [reflexivity|]);
      cbn; rewrite ?app_nil_r; done. }
  destruct Hst as (g & Hrun & Hd & Hp & Hc).
  rewrite (run_bind_fail _ _ _ _ _ Hrun). cbn [heap finalizers].
  erewrite End_run;
    [|cbn [heap]; apply lookup_last|by split|reflexivity].
  cbn [glctx heap finalizers]. rewrite insert_last.
  f_equal. apply world_eq; cbn [aborted glctx heap finalizers]; try reflexivity.
  - cbn. exact Hd.
  - cbn. exact Hp.
  - cbn. rewrite Hc. cbn. rewrite <- !app_assoc. reflexivity.
Qed.

(** Either way the struct is allocated at the next free pointer. *)
Lemma NewTexture_heap width height levels smooth pixels w :
  exists tx,
    heap (snd (NewTexture width height levels smooth pixels w)) = heap w ++ [tx]
    /\ mipmapLevels tx = levels.
Proof.
  destruct pixels as [|b0 rest].
  - rewrite NewTexture_run_empty. by eexists.
  - rewrite NewTexture_run by done. by eexists.
Qed.

(** C4 at the failing input.  [NewTexture] has no length check: given
    width 4, height 4 and a 60-byte buffer (64 expected) it returns a
    texture, having passed the short buffer to the driver's upload. *)
Theorem NewTexture_accepts_short_buffer :
  let short := replicate 60 Byte.x01 in
  GoInt.len short <> 4 * 4 * 4
  /\ fst (NewTexture 4 4 0 false short (example_world 0)) = Ret 1%nat
  /\ gl.CTexImage2D gl.TEXTURE_2D 0 gl.RGBA 4 4 0 gl.RGBA gl.UNSIGNED_BYTE short
     ∈ gl.calls (glctx (snd (NewTexture 4 4 0 false short (example_world 0)))).
Proof.
  cbv zeta. split; [discriminate|]. rewrite NewTexture_run by done.
  split; [reflexivity|]. cbn. rewrite !elem_of_cons. auto 10.
Qed.

(** C8.  Construction with mipmapLevels > 0 allocates immutable storage
    for that many levels (TexStorage2D), uploads the pixels into level 0
    (TexSubImage2D) and generates the mip chain (GenerateMipmap); with
    mipmapLevels = 0 it defines the single mutable level with the pixels
    (TexImage2D) and never calls GenerateMipmap.  Either way the wrap
    mode of the new texture is then set to clamp-to-border, on both axes.
    The initial pixels are not empty: from an empty buffer there is no
    construction, [gl.Ptr] panics before anything is uploaded. *)
Theorem NewTexture_storage_and_wrap width height levels smooth pixels w :
  pixels <> [] ->
  exists t w' name emitted,
    NewTexture width height levels smooth pixels w = (Ret t, w')
    /\ gl.calls (glctx w') = gl.calls (glctx w) ++ emitted
    /\ (levels > 0 ->
        emitted
        = [gl.CGenTextures 1 [name];
           gl.CGetIntegerv gl.TEXTURE_BINDING_2D;
           gl.CBindTexture gl.TEXTURE_2D name;
           gl.CTexStorage2D gl.TEXTURE_2D (GoInt.int32 levels) gl.RGBA8
             (GoInt.int32 width) (GoInt.int32 height);
           gl.CTexSubImage2D gl.TEXTURE_2D 0 0 0 (GoInt.int32 width) (GoInt.int32 height)
             gl.RGBA gl.UNSIGNED_BYTE pixels;
           gl.CGenerateMipmap gl.TEXTURE_2D;
           gl.CTexParameterfv gl.TEXTURE_2D gl.TEXTURE_BORDER_COLOR [0; 0; 0; 0];
           gl.CTexParameteri gl.TEXTURE_2D gl.TEXTURE_MIN_FILTER (min_filter smooth levels);
           gl.CTexParameteri gl.TEXTURE_2D gl.TEXTURE_MAG_FILTER (mag_filter smooth);
           gl.CTexParameteri gl.TEXTURE_2D gl.TEXTURE_WRAP_S CLAMP_TO_BORDER;
           gl.CTexParameteri gl.TEXTURE_2D gl.TEXTURE_WRAP_T CLAMP_TO_BORDER;
           gl.CBindTexture gl.TEXTURE_2D (gl.binding2D (glctx w))])
    /\ (levels = 0 ->
        emitted
        = [gl.CGenTextures 1 [name];
           gl.CGetIntegerv gl.TEXTURE_BINDING_2D;
           gl.CBindTexture gl.TEXTURE_2D name;
           gl.CTexImage2D gl.TEXTURE_2D 0 gl.RGBA (GoInt.int32 width) (GoInt.int32 height)
             0 gl.RGBA gl.UNSIGNED_BYTE pixels;
           gl.CTexParameterfv gl.TEXTURE_2D gl.TEXTURE_BORDER_COLOR [0; 0; 0; 0];
           gl.CTexParameteri gl.TEXTURE_2D gl.TEXTURE_MIN_FILTER (min_filter smooth levels);
           gl.CTexParameteri gl.TEXTURE_2D gl.TEXTURE_MAG_FILTER (mag_filter smooth);
           gl.CTexParameteri gl.TEXTURE_2D gl.TEXTURE_WRAP_S CLAMP_TO_BORDER;
           gl.CTexParameteri gl.TEXTURE_2D gl.TEXTURE_WRAP_T CLAMP_TO_BORDER;
           gl.CBindTexture gl.TEXTURE_2D (gl.binding2D (glctx w))]
        /\ gl.CGenerateMipmap gl.TEXTURE_2D ∉ emitted)
    /\ obj ∘ tex <$> heap w' !! t = Some name
    /\ gl.texParams (glctx w') !! (name, gl.TEXTURE_WRAP_S) = Some CLAMP_TO_BORDER
    /\ gl.texParams (glctx w') !! (name, gl.TEXTURE_WRAP_T) = Some CLAMP_TO_BORDER.
Proof.
  intros Hne.
  set (name := gl.gen_name (gl.driver (glctx w)) (gl.calls (glctx w))).
  exists (length (heap w)), (constructed width height levels smooth pixels w), name.
  eexists.
  split; [by apply NewTexture_run|].
  split; [reflexivity|].
  split; [|split; [|split; [|split]]].
  - intros Hpos. fold name. unfold storage_calls.
    destruct (Z.gtb_spec levels 0); [reflexivity|lia].
  - intros ->. fold name. split; [reflexivity|]. cbn.
    rewrite !not_elem_of_cons. repeat split; try discriminate.
    apply not_elem_of_nil.
  - cbn [constructed heap]. by rewrite lookup_last.
  - cbn [constructed glctx gl.texParams]. fold name. unfold constructed_params.
    rewrite lookup_insert_ne by (intros [=]). apply lookup_insert_eq.
  - cbn [constructed glctx gl.texParams]. fold name. unfold constructed_params.
    apply lookup_insert_eq.
Qed.

(** Construction with three mipmap levels, and with none. *)
Lemma NewTexture_storage_and_wrap_witness :
  gl.CGenerateMipmap gl.TEXTURE_2D
  ∈ gl.calls (glctx (constructed 2 2 3 true (replicate 16 Byte.x01) (example_world 0)))
  /\ gl.CGenerateMipmap gl.TEXTURE_2D
     ∉ gl.calls (glctx (constructed 2 2 0 true (replicate 16 Byte.x01) (example_world 0))).
Proof.
  remember (replicate 16 Byte.x01) as px eqn:Hpx.
  assert (Hne : px <> []) by (by subst px). clear Hpx.
  split.
  - destruct (NewTexture_storage_and_wrap 2 2 3 true px
                (example_world 0) Hne)
      as (t & w' & name & emitted & Hrun & Hcalls & Hpos & _).
    rewrite NewTexture_run in Hrun by done. injection Hrun as <- <-.
    rewrite Hcalls, (Hpos ltac:(lia)). cbn. rewrite !elem_of_cons. auto 10.
  - destruct (NewTexture_storage_and_wrap 2 2 0 true px
                (example_world 0) Hne)
      as (t & w' & name & emitted & Hrun & Hcalls & _ & Hzero & _).
    rewrite NewTexture_run in Hrun by done. injection Hrun as <- <-.
    rewrite Hcalls. cbn [example_world glctx gl.calls app].
    exact (proj2 (Hzero eq_refl)).
Defined.

(** ** The binding slot is restored *)

Lemma is_texture_tex tx tx' : tex tx' = tex tx -> is_texture tx -> is_texture tx'.
Proof. unfold is_texture. by intros ->. Qed.

Lemma leaves_binding_ret {A} t (a : A) : leaves_binding t (mret a).
Proof. by intros w. Qed.

Lemma leaves_binding_fail {A} t e : leaves_binding t (@fail A e).
Proof. by intros w. Qed.

Lemma leaves_binding_bind {A B} t (m : M A) (f : A -> M B) :
  leaves_binding t m -> (forall a, leaves_binding t (f a)) ->
  leaves_binding t (m ≫= f).
Proof.
  intros Hm Hf w. rewrite run_bind. destruct (Hm w) as [Hb Hh].
  destruct (m w) as [[a|e] w1]; cbn [snd] in *; [|done].
  destruct (Hf a w1) as [Hb' Hh']. split; congruence.
Qed.

Lemma leaves_binding_Ptr t data : leaves_binding t (Ptr data).
Proof. by destruct data. Qed.

Lemma leaves_binding_SetSmooth t t' b : leaves_binding t (SetSmooth t' b).
Proof.
  intros w. destruct (heap w !! t') as [tx|] eqn:Ht'.
  - rewrite (SetSmooth_run t' tx) by done. cbn [snd smoothed glctx heap].
    rewrite !binding2D_TexParameteri. split; [done|].
    destruct (decide (t' = t)) as [->|Hne].
    + rewrite list_lookup_insert_eq by by eapply lookup_lt_Some.
      by rewrite Ht'.
    + by rewrite list_lookup_insert_ne.
  - unfold SetSmooth. rewrite run_bind. unfold update. by rewrite Ht'.
Qed.

Lemma leaves_binding_glcall t f :
  (forall g, gl.binding2D (f g) = gl.binding2D g) -> leaves_binding t (glcall f).
Proof. intros Hf w. split; [apply Hf|done]. Qed.

Lemma leaves_binding_SetWrap t t' wrap : leaves_binding t (SetWrap t' wrap).
Proof.
  intros w. rewrite SetWrap_run. cbn [snd wrapped glctx heap].
  by rewrite !binding2D_TexParameteri.
Qed.

Lemma leaves_binding_SetFinalizer t t' : leaves_binding t (SetFinalizer t').
Proof. by intros w. Qed.

(** [NewTexture] is its construction inside a scope of the new texture. *)
Lemma NewTexture_scope width height mipmapLevels smooth pixels :
  NewTexture width height mipmapLevels smooth pixels
  = (tex ← new {| tex := {| restoreLoc := gl.TEXTURE_BINDING_2D;
                            bindFunc := fun obj => gl.BindTexture gl.TEXTURE_2D obj;
                            obj := 0; prev := [] |};
                  width := width; height := height;
                  mipmapLevels := mipmapLevels; smooth := false |};
     name ← glget gl.GenTextures1;
     update tex (set_obj name);;
     Begin tex;;
     defer (End tex) (construction tex width height mipmapLevels smooth pixels)).
Proof. reflexivity. Qed.

(** The construction binds nothing and leaves every binder alone, on the
    path that returns and on the one that panics in [gl.Ptr]. *)
Lemma leaves_binding_construction t tex width height mipmapLevels smooth pixels :
  leaves_binding t (construction tex width height mipmapLevels smooth pixels).
Proof.
  unfold construction.
  apply leaves_binding_bind.
  - destruct (mipmapLevels >? 0).
    + apply leaves_binding_bind; [by apply leaves_binding_glcall|intros _].
      apply leaves_binding_bind; [apply leaves_binding_Ptr|intros p].
      apply leaves_binding_bind; [by apply leaves_binding_glcall|intros _].
      by apply leaves_binding_glcall.
    + apply leaves_binding_bind; [apply leaves_binding_Ptr|intros p].
      by apply leaves_binding_glcall.
  - intros _. apply leaves_binding_bind; [by apply leaves_binding_glcall|intros _].
    apply leaves_binding_bind; [apply leaves_binding_SetSmooth|intros _].
    apply leaves_binding_bind; [apply leaves_binding_SetWrap|intros _].
    apply leaves_binding_bind; [apply leaves_binding_SetFinalizer|intros _].
    apply leaves_binding_ret.
Qed.

(** Without [defer] an [End] written after a body that panics does not
    run, and the texture stays bound. *)
Lemma End_after_panic_is_skipped :
  gl.binding2D (glctx (snd ((Begin 0%nat;; (Ptr [];; End 0%nat)) two_textures))) = 1
  /\ gl.binding2D (glctx (snd ((Begin 0%nat;; defer (End 0%nat) (Ptr [])) two_textures)))
     = 7.
Proof. split; reflexivity. Qed.

(** C1.  [Begin] records the handle bound to the 2D texture slot and
    binds the texture's own handle.  After the matching [End] the slot
    holds the handle it held before that [Begin], whatever properly
    nested Begin/End pairs of this or other textures ran in between.
    The pair inside [NewTexture] restores the slot on both of its paths:
    when the construction returns, and when it panics in [gl.Ptr] on an
    empty buffer.  In general a deferred [End] restores the slot also
    when the code between the two panics. *)
Theorem Begin_End_restores_binding t tx body w :
  heap w !! t = Some tx ->
  nested body ->
  scopes_ok w body ->
  (exists w1,
     Begin t w = (Ret tt, w1)
     /\ gl.binding2D (glctx w1) = obj (tex tx)
     /\ prev ∘ tex <$> heap w1 !! t
        = Some (gl.binding2D (glctx w) :: prev (tex tx)))
  /\ (exists w2,
        run_scope (OpBegin t :: body ++ [OpEnd t]) w = (Ret tt, w2)
        /\ gl.binding2D (glctx w2) = gl.binding2D (glctx w)
        /\ heap w2 = heap w)
  /\ (forall width height levels smooth pixels,
        exists r w3,
          NewTexture width height levels smooth pixels w = (r, w3)
          /\ gl.binding2D (glctx w3) = gl.binding2D (glctx w)
          /\ (pixels <> [] -> exists t', r = Ret t')
          /\ (pixels = [] -> r = Fail (RuntimeError EmptySlicePtr)))
  /\ (forall A (m : M A),
        leaves_binding t m ->
        exists r w4,
          (Begin t;; defer (End t) m) w = (r, w4)
          /\ r = fst (m (begun t tx w))
          /\ gl.binding2D (glctx w4) = gl.binding2D (glctx w)).
Proof.
  intros Ht Hnested [Hheap Hlocs].
  assert (Htx : is_texture tx) by by eapply Forall_lookup_1.
  assert (Hlt : (t < length (heap w))%nat) by by eapply lookup_lt_Some.
  split; [|split; [|split]].
  - exists (begun t tx w). split; [by apply Begin_run|]. split; [reflexivity|].
    cbn [begun heap]. by rewrite list_lookup_insert_eq.
  - destruct (nested_run (OpBegin t :: body ++ [OpEnd t])) with (w := w)
      as [cs Hcs].
    + apply nested_scope; [done|constructor].
    + split; [done|]. apply Forall_cons. split; [done|].
      apply Forall_app. split; [done|]. by apply Forall_singleton.
    + exists (with_calls w cs). by split.
  - intros wd ht lv sm pixels. destruct pixels as [|b0 rest].
    + eexists _, _. split; [apply NewTexture_run_empty|].
      split; [reflexivity|]. by split.
    + eexists _, _. split; [by apply NewTexture_run|].
      split; [reflexivity|]. split; [by eexists|done].
  - intros A m Hm.
    destruct (Hm (begun t tx w)) as [Hb Hh].
    destruct (m (begun t tx w)) as [r wm] eqn:Hrun. cbn [fst snd] in *.
    assert (Hb1 : heap (begun t tx w) !! t
                  = Some (set_prev (gl.binding2D (glctx w) :: prev (tex tx)) tx))
      by (cbn [begun heap]; by apply list_lookup_insert_eq).
    rewrite Hb1 in Hh.
    destruct (heap wm !! t) as [txm|] eqn:Hm'; [|done].
    assert (Hh' : tex txm
                  = tex (set_prev (gl.binding2D (glctx w) :: prev (tex tx)) tx))
      by (cbn in Hh; by injection Hh).
    clear Hh. rename Hh' into Hh.
    eexists r, _. split; [|split; [reflexivity|]].
    + erewrite run_bind_ret by (by apply Begin_run).
      unfold defer. rewrite Hrun.
      rewrite (End_run t txm (gl.binding2D (glctx w)) (prev (tex tx)) wm Hm');
        [reflexivity| |by rewrite Hh].
      eapply is_texture_tex; [exact Hh|by apply is_texture_set_prev].
    + reflexivity.
Qed.

(** Two textures nested with name 7 bound before; a construction from an
    empty buffer in the same world; and a scope of texture 0 around a
    construction that panics on an empty buffer. *)
Lemma Begin_End_restores_binding_witness :
  (exists w2,
     run_scope [OpBegin 0%nat; OpBegin 1%nat; OpEnd 1%nat; OpEnd 0%nat] two_textures
     = (Ret tt, w2)
     /\ gl.binding2D (glctx w2) = 7)
  /\ (exists w3,
        NewTexture 2 2 1 true [] two_textures = (Fail (RuntimeError EmptySlicePtr), w3)
        /\ gl.binding2D (glctx w3) = 7)
  /\ (exists r w4,
        (Begin 0%nat;; defer (End 0%nat) (construction 0%nat 2 2 1 true []))
          two_textures
        = (r, w4)
        /\ is_fail r = true
        /\ gl.binding2D (glctx w4) = 7).
Proof.
  assert (Hnested : nested [OpBegin 1%nat; OpEnd 1%nat])
    by exact (nested_scope 1%nat [] [] nested_nil nested_nil).
  assert (Hok : scopes_ok two_textures [OpBegin 1%nat; OpEnd 1%nat]).
  { split; repeat constructor; cbn; lia. }
  destruct (Begin_End_restores_binding 0%nat (constructed_texture 1 2 2 0 false)
              [OpBegin 1%nat; OpEnd 1%nat] two_textures eq_refl Hnested Hok)
    as (_ & (w2 & Hrun & Hb & _) & Hnew & Hdefer).
  split; [|split].
  - exists w2. split; [exact Hrun|exact Hb].
  - destruct (Hnew 2 2 1 true []) as (r & w3 & Hrun3 & Hb3 & _ & Hfail).
    exists w3. rewrite Hrun3, (Hfail eq_refl). by split.
  - destruct (Hdefer _ (construction 0%nat 2 2 1 true []))
      as (r & w4 & Hrun4 & Hr & Hb4); [apply leaves_binding_construction|].
    exists r, w4. split; [exact Hrun4|]. split; [|exact Hb4].
    rewrite Hr. reflexivity.
Defined.

(** ** The mipmap level count is fixed at construction *)

Create HintDb levels.

Lemma levels_kept_refl w : levels_kept w w.
Proof. intros t tx Ht. by exists tx. Qed.

Lemma levels_kept_heap w w' : heap w' = heap w -> levels_kept w w'.
Proof. intros E t tx Ht. exists tx. by rewrite E. Qed.

Lemma levels_kept_trans w1 w2 w3 :
  levels_kept w1 w2 -> levels_kept w2 w3 -> levels_kept w1 w3.
Proof.
  intros H12 H23 t tx Ht.
  destruct (H12 t tx Ht) as (tx2 & Ht2 & E2).
  destruct (H23 t tx2 Ht2) as (tx3 & Ht3 & E3).
  exists tx3. split; [done|congruence].
Qed.

Lemma keeps_ret {A} (a : A) : keeps_levels (mret a).
Proof. intros w. apply levels_kept_refl. Qed.

Lemma keeps_fail {A} e : keeps_levels (@fail A e).
Proof. intros w. apply levels_kept_refl. Qed.

Lemma keeps_bind {A B} (m : M A) (f : A -> M B) :
  keeps_levels m -> (forall a, keeps_levels (f a)) -> keeps_levels (m ≫= f).
Proof.
  intros Hm Hf w. rewrite run_bind. specialize (Hm w).
  destruct (m w) as [[a|e] w1]; [|exact Hm].
  eapply levels_kept_trans; [exact Hm|apply Hf].
Qed.

Lemma keeps_load t : keeps_levels (load t).
Proof. intros w. unfold load. destruct (heap w !! t); apply levels_kept_refl. Qed.

Lemma keeps_update t f :
  (forall tx, mipmapLevels (f tx) = mipmapLevels tx) -> keeps_levels (update t f).
Proof.
  intros Hf w. unfold update.
  destruct (heap w !! t) as [tx|] eqn:Ht; [|apply levels_kept_refl].
  intros t' tx' Ht'. cbn [snd heap].
  destruct (decide (t = t')) as [<-|Hne].
  - exists (f tx). rewrite list_lookup_insert_eq by by eapply lookup_lt_Some.
    split; [done|]. rewrite Hf. congruence.
  - exists tx'. by rewrite list_lookup_insert_ne.
Qed.

Lemma keeps_new tx : keeps_levels (new tx).
Proof.
  intros w t tx' Ht. exists tx'. split; [|done].
  cbn. by apply lookup_app_l_Some.
Qed.

Lemma keeps_glget {A} (f : gl.State -> A * gl.State) : keeps_levels (glget f).
Proof.
  intros w. unfold glget. destruct (f (glctx w)). by apply levels_kept_heap.
Qed.

Lemma keeps_glcall f : keeps_levels (glcall f).
Proof. apply keeps_glget. Qed.

Lemma keeps_SetFinalizer t : keeps_levels (SetFinalizer t).
Proof. intros w. by apply levels_kept_heap. Qed.

Lemma keeps_defer {A} fin (body : M A) :
  keeps_levels fin -> keeps_levels body -> keeps_levels (defer fin body).
Proof.
  intros Hfin Hbody w. unfold defer. specialize (Hbody w).
  destruct (body w) as [r w1]. specialize (Hfin w1).
  destruct (fin w1) as [[?|?] w2];
    eapply levels_kept_trans; [exact Hbody|exact Hfin|exact Hbody|exact Hfin].
Qed.

Lemma keeps_make n : keeps_levels (make n).
Proof. unfold make. destruct (_ || _); [apply keeps_fail|apply keeps_ret]. Qed.

Lemma keeps_Ptr data : keeps_levels (Ptr data).
Proof. destruct data; [apply keeps_fail|apply keeps_ret]. Qed.

Lemma keeps_copyRows twidth x y w pixels rows :
  forall subP, keeps_levels (copyRows twidth x y w pixels rows subP).
Proof.
  induction rows as [|i rows IH]; intros subP; cbn [copyRows];
    [apply keeps_ret|].
  destruct (slice_ok pixels _ _); cbn [negb]; [|apply keeps_fail].
  destruct (slice_ok subP _ _); cbn [negb]; [apply IH|apply keeps_fail].
Qed.

#[local] Hint Resolve keeps_ret keeps_fail keeps_bind keeps_load keeps_new
  keeps_glget keeps_glcall keeps_SetFinalizer keeps_defer keeps_make keeps_Ptr
  keeps_copyRows : levels.

Lemma keeps_Begin t : keeps_levels (Begin t).
Proof.
  unfold Begin, bind. repeat (apply keeps_bind; [|intros]); auto with levels.
  by apply keeps_update.
Qed.

Lemma keeps_End t : keeps_levels (End t).
Proof.
  unfold End, restore. apply keeps_bind; [auto with levels|intros tx].
  destruct (prev (tex tx)); [auto with levels|].
  apply keeps_bind; [auto with levels|intros]. by apply keeps_update.
Qed.

Lemma keeps_SetSmooth t b : keeps_levels (SetSmooth t b).
Proof.
  unfold SetSmooth. apply keeps_bind; [by apply keeps_update|intros _].
  destruct b; (apply keeps_bind; [auto with levels|intros tx]);
    destruct (mipmapLevels tx >? 0); auto with levels.
Qed.

Lemma keeps_SetWrap t wrap : keeps_levels (SetWrap t wrap).
Proof. unfold SetWrap. auto with levels. Qed.

Lemma keeps_SetPixels t x y w h pixels : keeps_levels (SetPixels t x y w h pixels).
Proof.
  unfold SetPixels, panic. destruct (negb _); [auto with levels|].
  apply keeps_bind; [auto with levels|intros p].
  apply keeps_bind; [auto with levels|intros _].
  apply keeps_bind; [auto with levels|intros tx].
  destruct (mipmapLevels tx >? 0); auto with levels.
Qed.

Lemma keeps_Pixels t x y w h : keeps_levels (Pixels t x y w h).
Proof. unfold Pixels. auto 10 with levels. Qed.

#[local] Hint Resolve keeps_Begin keeps_End keeps_SetSmooth keeps_SetWrap
  keeps_SetPixels keeps_Pixels : levels.

Lemma keeps_NewTexture width height levels smooth pixels :
  keeps_levels (NewTexture width height levels smooth pixels).
Proof.
  unfold NewTexture.
  apply keeps_bind; [auto with levels|intros t].
  apply keeps_bind; [auto with levels|intros name].
  apply keeps_bind; [by apply keeps_update|intros _].
  apply keeps_bind; [auto with levels|intros _].
  apply keeps_defer; [auto with levels|].
  apply keeps_bind; [destruct (levels >? 0); auto 10 with levels|intros _].
  auto 10 with levels.
Qed.

Lemma keeps_exec c : keeps_levels (exec c).
Proof.
  destruct c; cbn [exec]; auto with levels.
  - apply keeps_bind; [apply keeps_NewTexture|auto with levels].
Qed.

Lemma levels_kept_run cs : forall w, levels_kept w (run cs w).
Proof.
  induction cs as [|c cs IH]; intros w; [apply levels_kept_refl|].
  cbn [run fold_left]. eapply levels_kept_trans; [apply keeps_exec|apply IH].
Qed.

(** C7.  Take a texture constructed with [levels] mipmap levels, and
    let any calls of the package follow.  A [SetPixels] with a non-empty
    buffer of the right size (an empty one stops at [gl.Ptr] before any
    upload) then uploads the rectangle and afterwards regenerates the mip
    chain exactly when [levels] > 0: always then, and never when [levels]
    is 0. *)
Theorem SetPixels_regenerates_iff_mipmapped
    width height levels smooth initial w0 t w1 cs x y w h pixels :
  NewTexture width height levels smooth initial w0 = (Ret t, w1) ->
  pixels <> [] ->
  GoInt.len pixels = w *i h *i 4 ->
  exists regen,
    SetPixels t x y w h pixels (run cs w1)
    = (Ret tt,
       with_calls (run cs w1)
         (gl.CTexSubImage2D gl.TEXTURE_2D 0
            (GoInt.int32 x) (GoInt.int32 y) (GoInt.int32 w) (GoInt.int32 h)
            gl.RGBA gl.UNSIGNED_BYTE pixels :: regen))
    /\ (levels > 0 -> regen = [gl.CGenerateMipmap gl.TEXTURE_2D])
    /\ (levels <= 0 -> regen = [])
    /\ (gl.CGenerateMipmap gl.TEXTURE_2D ∈ regen <-> levels > 0).
Proof.
  intros Hnew Hne Hlen.
  assert (Hinit : initial <> []).
  { intros ->. by rewrite NewTexture_run_empty in Hnew. }
  rewrite NewTexture_run in Hnew by done. injection Hnew as <- <-.
  destruct (levels_kept_run cs (constructed width height levels smooth initial w0)
              (length (heap w0))
              (constructed_texture
                 (gl.gen_name (gl.driver (glctx w0)) (gl.calls (glctx w0)))
                 width height levels smooth))
    as (tx & Htx & Hlv); [apply lookup_last|].
  cbn [constructed_texture mipmapLevels] in Hlv.
  exists (if levels >? 0 then [gl.CGenerateMipmap gl.TEXTURE_2D] else []).
  split.
  - rewrite (SetPixels_match _ tx) by done. unfold upload_calls. by rewrite Hlv.
  - destruct (Z.gtb_spec levels 0); repeat split; try done; try lia.
    + intros _. apply list_elem_of_singleton. done.
    + by intros ?%elem_of_nil.
Qed.

(** A texture built with three levels, written to after other calls. *)
Lemma SetPixels_regenerates_iff_mipmapped_witness :
  gl.CGenerateMipmap gl.TEXTURE_2D
  ∈ gl.calls (glctx (snd (SetPixels 1%nat 0 0 1 1 (replicate 4 Byte.x01)
       (run [CallBegin 1%nat; CallSetSmooth 1%nat false]
          (constructed 2 2 3 true (replicate 16 Byte.x01) (example_world 0)))))).
Proof.
  destruct (SetPixels_regenerates_iff_mipmapped 2 2 3 true (replicate 16 Byte.x01)
              (example_world 0) 1%nat _ [CallBegin 1%nat; CallSetSmooth 1%nat false]
              0 0 1 1 (replicate 4 Byte.x01)
              (NewTexture_run 2 2 3 true (replicate 16 Byte.x01) (example_world 0)
                 ltac:(done))
              ltac:(done) eq_refl)
    as (regen & Hrun & Hpos & _).
  rewrite Hrun, (Hpos ltac:(lia)).
  cbn [snd with_calls glctx gl.calls]. rewrite elem_of_app, !elem_of_cons. auto.
Defined.

(** * Further properties *)

(** ** What a call leaves alone *)

Section Respects.
Context (Q : World -> World -> Prop).
Hypothesis Q_refl : forall w, Q w w.
Hypothesis Q_trans : forall w1 w2 w3, Q w1 w2 -> Q w2 w3 -> Q w1 w3.
Hypothesis Q_prev : forall t p, respects Q (update t (set_prev p)).
Hypothesis Q_gl : forall A (f : gl.State -> A * gl.State), respects Q (glget f).
Hypothesis Q_NewTexture : forall width height levels smooth pixels,
  respects Q (NewTexture width height levels smooth pixels).

Lemma respects_ret {A} (a : A) : respects Q (mret a).
Proof. intros w. apply Q_refl. Qed.

Lemma respects_fail {A} e : respects Q (@fail A e).
Proof. intros w. apply Q_refl. Qed.

Lemma respects_bind {A B} (m : M A) (f : A -> M B) :
  respects Q m -> (forall a, respects Q (f a)) -> respects Q (m ≫= f).
Proof.
  intros Hm Hf w. rewrite run_bind. specialize (Hm w).
  destruct (m w) as [[a|e] w1]; [|exact Hm].
  eapply Q_trans; [exact Hm|apply Hf].
Qed.

Lemma respects_load t : respects Q (load t).
Proof. intros w. unfold load. destruct (heap w !! t); apply Q_refl. Qed.

Lemma respects_glcall f : respects Q (glcall f).
Proof. apply Q_gl. Qed.

Lemma respects_make n : respects Q (make n).
Proof. unfold make. destruct (_ || _); [apply respects_fail|apply respects_ret]. Qed.

Lemma respects_Ptr data : respects Q (Ptr data).
Proof. destruct data; [apply respects_fail|apply respects_ret]. Qed.

Lemma respects_copyRows twidth x y w pixels rows :
  forall subP, respects Q (copyRows twidth x y w pixels rows subP).
Proof.
  induction rows as [|i rows IH]; intros subP; cbn [copyRows];
    [apply respects_ret|].
  destruct (slice_ok pixels _ _); cbn [negb]; [|apply respects_fail].
  destruct (slice_ok subP _ _); cbn [negb]; [apply IH|apply respects_fail].
Qed.

Lemma respects_Begin t : respects Q (Begin t).
Proof.
  unfold Begin, bind.
  apply respects_bind; [apply respects_load|intros tx].
  apply respects_bind; [apply Q_gl|intros p].
  apply respects_bind; [apply Q_prev|intros _]. apply respects_glcall.
Qed.

Lemma respects_End t : respects Q (End t).
Proof.
  unfold End, restore. apply respects_bind; [apply respects_load|intros tx].
  destruct (prev (tex tx)); [apply respects_fail|].
  apply respects_bind; [apply respects_glcall|intros _]. apply Q_prev.
Qed.

Lemma respects_SetSmooth t b :
  respects Q (update t (set_smooth b)) -> respects Q (SetSmooth t b).
Proof.
  intros Hupd. unfold SetSmooth. apply respects_bind; [exact Hupd|intros _].
  destruct b; (apply respects_bind; [apply respects_load|intros tx]);
    (apply respects_bind; [|intros _; apply respects_glcall]);
    destruct (mipmapLevels tx >? 0); apply respects_glcall.
Qed.

Lemma respects_SetWrap t wrap : respects Q (SetWrap t wrap).
Proof.
  unfold SetWrap. apply respects_bind; [|intros _]; apply respects_glcall.
Qed.

Lemma respects_SetPixels t x y w h pixels : respects Q (SetPixels t x y w h pixels).
Proof.
  unfold SetPixels, panic. destruct (negb _); [apply respects_fail|].
  apply respects_bind; [apply respects_Ptr|intros p].
  apply respects_bind; [apply respects_glcall|intros _].
  apply respects_bind; [apply respects_load|intros tx].
  destruct (mipmapLevels tx >? 0); [apply respects_glcall|apply respects_ret].
Qed.

Lemma respects_Pixels t x y w h : respects Q (Pixels t x y w h).
Proof.
  unfold Pixels.
  apply respects_bind; [apply respects_load|intros tx].
  apply respects_bind; [apply respects_make|intros buf].
  apply respects_bind; [apply respects_Ptr|intros p].
  apply respects_bind; [apply Q_gl|intros pixels].
  apply respects_bind; [apply respects_make|intros subP].
  apply respects_copyRows.
Qed.

(** Any call respects [Q], provided the flag assignment of a [SetSmooth]
    call does. *)
Lemma respects_exec c :
  (forall t b, c = CallSetSmooth t b -> respects Q (update t (set_smooth b))) ->
  respects Q (exec c).
Proof.
  intros Hsmooth. destruct c; cbn [exec].
  - apply respects_bind; [apply Q_NewTexture|intros; apply respects_ret].
  - apply respects_Begin.
  - apply respects_End.
  - apply respects_SetPixels.
  - apply respects_bind; [apply respects_Pixels|intros; apply respects_ret].
  - apply respects_SetSmooth. by apply Hsmooth.
  - apply respects_SetWrap.
Qed.

Lemma respects_run cs :
  Forall (fun c => forall t b, c = CallSetSmooth t b ->
                     respects Q (update t (set_smooth b))) cs ->
  forall w, Q w (run cs w).
Proof.
  induction 1 as [|c cs Hc _ IH]; intros w; [apply Q_refl|].
  cbn [run fold_left]. eapply Q_trans; [by apply respects_exec|apply IH].
Qed.

End Respects.

(** [structs_kept R] is such a [Q] when [R] is a preorder that ignores
    the binder's record. *)
Section StructsKept.
Context (R : nat -> Texture -> Texture -> Prop).
Hypothesis R_refl : forall t tx, R t tx tx.
Hypothesis R_trans : forall t tx1 tx2 tx3, R t tx3 tx2 -> R t tx2 tx1 -> R t tx3 tx1.
Hypothesis R_prev : forall t p tx, R t (set_prev p tx) tx.

Lemma structs_kept_refl w : structs_kept R w w.
Proof. intros t tx Ht. by exists tx. Qed.

Lemma structs_kept_trans w1 w2 w3 :
  structs_kept R w1 w2 -> structs_kept R w2 w3 -> structs_kept R w1 w3.
Proof.
  intros H12 H23 t tx Ht.
  destruct (H12 t tx Ht) as (tx2 & Ht2 & R2).
  destruct (H23 t tx2 Ht2) as (tx3 & Ht3 & R3).
  exists tx3. split; [done|]. by eapply R_trans.
Qed.

Lemma structs_kept_update t f :
  (forall tx, R t (f tx) tx) -> respects (structs_kept R) (update t f).
Proof.
  intros Hf w. unfold update.
  destruct (heap w !! t) as [tx|] eqn:Ht; [|apply structs_kept_refl].
  intros t' tx' Ht'. cbn [snd heap].
  destruct (decide (t = t')) as [<-|Hne].
  - exists (f tx). rewrite list_lookup_insert_eq by by eapply lookup_lt_Some.
    split; [done|]. replace tx' with tx by congruence. apply Hf.
  - exists tx'. by rewrite list_lookup_insert_ne.
Qed.

Lemma structs_kept_glget A (f : gl.State -> A * gl.State) :
  respects (structs_kept R) (glget f).
Proof.
  intros w t tx Ht. unfold glget. destruct (f (glctx w)). by exists tx.
Qed.

Lemma structs_kept_NewTexture width height levels smooth pixels :
  respects (structs_kept R) (NewTexture width height levels smooth pixels).
Proof.
  intros w t tx Ht. exists tx. split; [|apply R_refl].
  destruct (NewTexture_heap width height levels smooth pixels w) as (tx' & -> & _).
  by apply lookup_app_l_Some.
Qed.

Lemma structs_kept_run cs :
  Forall (fun c => forall t b tx, c = CallSetSmooth t b -> R t (set_smooth b tx) tx) cs ->
  forall w, structs_kept R w (run cs w).
Proof.
  intros Hcs. apply respects_run.
  - apply structs_kept_refl.
  - apply structs_kept_trans.
  - intros t p. apply structs_kept_update. intros tx. apply R_prev.
  - apply structs_kept_glget.
  - apply structs_kept_NewTexture.
  - eapply Forall_impl; [exact Hcs|]. intros c Hc t b ->.
    apply structs_kept_update. intros tx. by apply Hc.
Qed.

End StructsKept.

(** ** Getters *)

(** X1.  The width, the height and the name of a texture are fixed by
    its construction: whatever calls of the package follow, [Width],
    [Height] and [ID] return the constructor's arguments and the name
    the driver handed out, and leave the world as it is. *)
Theorem getters_fixed_by_construction
    width height levels smooth pixels w0 t w1 cs :
  NewTexture width height levels smooth pixels w0 = (Ret t, w1) ->
  Width t (run cs w1) = (Ret width, run cs w1)
  /\ Height t (run cs w1) = (Ret height, run cs w1)
  /\ ID t (run cs w1)
     = (Ret (gl.gen_name (gl.driver (glctx w0)) (gl.calls (glctx w0))), run cs w1).
Proof.
  intros Hnew.
  assert (Hne : pixels <> []).
  { intros ->. by rewrite NewTexture_run_empty in Hnew. }
  rewrite NewTexture_run in Hnew by done. injection Hnew as <- <-.
  destruct (structs_kept_run same_fixed_fields) with (cs := cs)
    (w := constructed width height levels smooth pixels w0)
    (t := length (heap w0))
    (tx := constructed_texture
             (gl.gen_name (gl.driver (glctx w0)) (gl.calls (glctx w0)))
             width height levels smooth)
    as (tx & Htx & Hw & Hh & Ho).
  - by intros ? ?.
  - intros ? ? ? ? (? & ? & ?) (? & ? & ?). repeat split; congruence.
  - by intros ? ? ?.
  - apply Forall_forall. by intros ? ? ? ? ? ?.
  - apply lookup_last.
  - cbn in Hw, Hh, Ho. unfold Width, Height, ID.
    rewrite !(run_bind_ret _ _ _ _ _ (run_load _ _ _ Htx)).
    by rewrite Hw, Hh, Ho.
Qed.

(** A 3x5 texture, bound and smoothed after its construction. *)
Lemma getters_fixed_by_construction_witness :
  let w := run [CallBegin 1%nat; CallSetSmooth 1%nat true]
             (constructed 3 5 0 false (replicate 60 Byte.x01) (example_world 0)) in
  Width 1%nat w = (Ret 3, w) /\ Height 1%nat w = (Ret 5, w).
Proof.
  destruct (getters_fixed_by_construction 3 5 0 false (replicate 60 Byte.x01)
              (example_world 0) 1%nat _
              [CallBegin 1%nat; CallSetSmooth 1%nat true]
              (NewTexture_run 3 5 0 false (replicate 60 Byte.x01) (example_world 0)
                 ltac:(done)))
    as (HW & HH & _).
  split; [exact HW|exact HH].
Defined.

(** X2.  [Smooth] returns the flag of the latest [SetSmooth] on the
    texture: calls that are not a [SetSmooth] on this texture, among
    them [SetSmooth] on other textures and [NewTexture], do not change
    it. *)
Theorem Smooth_reads_last_SetSmooth t tx b w cs :
  heap w !! t = Some tx ->
  Forall (fun c => sets_smooth_of t c = false) cs ->
  Smooth t (run cs (snd (SetSmooth t b w)))
  = (Ret b, run cs (snd (SetSmooth t b w))).
Proof.
  intros Ht Hcs. rewrite (SetSmooth_run t tx) by done. cbn [snd].
  assert (Hlt : (t < length (heap w))%nat) by by eapply lookup_lt_Some.
  destruct (structs_kept_run (same_smooth_at t)) with (cs := cs)
    (w := smoothed t tx b w) (t := t) (tx := set_smooth b tx)
    as (tx' & Htx' & Hs).
  - by intros ? ? ?.
  - intros ? ? ? ? H32 H21 E. by rewrite (H32 E), (H21 E).
  - by intros ? ? ? ?.
  - eapply Forall_impl; [exact Hcs|]. cbn beta.
    intros c Hc t' b' tx0 -> ->. cbn in Hc. by rewrite bool_decide_eq_false in Hc.
  - cbn [smoothed heap]. by apply list_lookup_insert_eq.
  - unfold Smooth. rewrite (run_bind_ret _ _ _ _ _ (run_load _ _ _ Htx')).
    by rewrite (Hs eq_refl).
Qed.

(** The flag of the first of two textures survives calls on the second. *)
Lemma Smooth_reads_last_SetSmooth_witness :
  fst (Smooth 0%nat
         (run [CallSetSmooth 1%nat false; CallSetWrap 0%nat REPEAT]
            (snd (SetSmooth 0%nat true two_textures))))
  = Ret true.
Proof.
  rewrite (Smooth_reads_last_SetSmooth 0%nat (constructed_texture 1 2 2 0 false)
             true two_textures
             [CallSetSmooth 1%nat false; CallSetWrap 0%nat REPEAT] eq_refl).
  - reflexivity.
  - repeat constructor.
Defined.

(** ** Finalizers *)










(** ** Setters *)

Lemma int32_exact z : in_int32 z -> GoInt.int32 z = z.
Proof.
  unfold in_int32, GoInt.int32. intros Hz. rewrite Z.mod_small; lia.
Qed.

Lemma texParams_wrapped m w :
  gl.texParams (glctx (wrapped m w))
  = <[(gl.binding2D (glctx w), gl.TEXTURE_WRAP_T) := GoInt.int32 m]>
      (<[(gl.binding2D (glctx w), gl.TEXTURE_WRAP_S) := GoInt.int32 m]>
         (gl.texParams (glctx w))).
Proof. reflexivity. Qed.

Lemma texParams_smoothed t tx b w :
  gl.texParams (glctx (smoothed t tx b w))
  = <[(gl.binding2D (glctx w), gl.TEXTURE_MAG_FILTER) := mag_filter b]>
      (<[(gl.binding2D (glctx w), gl.TEXTURE_MIN_FILTER) := min_filter b (mipmapLevels tx)]>
         (gl.texParams (glctx w))).
Proof. reflexivity. Qed.

(** X4.  [SetWrap] never fails and does not look at its receiver: it
    sets the S and the T wrap mode of the texture bound to the 2D slot
    to the given mode, and changes no other parameter, no struct and not
    the binding. *)
Theorem SetWrap_sets_both_axes t m w :
  in_int32 m ->
  exists w',
    SetWrap t m w = (Ret tt, w')
    /\ gl.texParams (glctx w') !! (gl.binding2D (glctx w), gl.TEXTURE_WRAP_S) = Some m
    /\ gl.texParams (glctx w') !! (gl.binding2D (glctx w), gl.TEXTURE_WRAP_T) = Some m
    /\ (forall k, k <> (gl.binding2D (glctx w), gl.TEXTURE_WRAP_S) ->
                  k <> (gl.binding2D (glctx w), gl.TEXTURE_WRAP_T) ->
                  gl.texParams (glctx w') !! k = gl.texParams (glctx w) !! k)
    /\ gl.binding2D (glctx w') = gl.binding2D (glctx w)
    /\ heap w' = heap w.
Proof.
  intros Hm. exists (wrapped m w). split; [apply SetWrap_run|].
  rewrite texParams_wrapped, (int32_exact m Hm). repeat split.
  - rewrite lookup_insert_ne by (intros [=]). apply lookup_insert_eq.
  - apply lookup_insert_eq.
  - intros k HS HT. by rewrite !lookup_insert_ne.
Qed.

(** Repeat mode through a pointer to nothing, with name 7 bound. *)
Lemma SetWrap_sets_both_axes_witness :
  exists w',
    SetWrap 9%nat REPEAT two_textures = (Ret tt, w')
    /\ gl.texParams (glctx w') !! (7, gl.TEXTURE_WRAP_S) = Some REPEAT
    /\ gl.texParams (glctx w') !! (7, gl.TEXTURE_WRAP_T) = Some REPEAT.
Proof.
  destruct (SetWrap_sets_both_axes 9%nat REPEAT two_textures) as (w' & H1 & H2 & H3 & _).
  - unfold in_int32, REPEAT, gl.REPEAT. lia.
  - exists w'. repeat split; assumption.
Defined.

(** X5.  [SetSmooth] and [SetWrap] do not interfere: in either order
    they leave the same sampler parameters, the same structs and the
    same binding. *)
Theorem SetSmooth_SetWrap_commute t tx b m w :
  heap w !! t = Some tx ->
  exists w1 w2,
    (SetSmooth t b;; SetWrap t m) w = (Ret tt, w1)
    /\ (SetWrap t m;; SetSmooth t b) w = (Ret tt, w2)
    /\ gl.texParams (glctx w1) = gl.texParams (glctx w2)
    /\ heap w1 = heap w2
    /\ gl.binding2D (glctx w1) = gl.binding2D (glctx w2).
Proof.
  intros Ht.
  exists (wrapped m (smoothed t tx b w)), (smoothed t tx b (wrapped m w)).
  split; [|split; [|split; [|split]]].
  - by rewrite (run_bind_ret _ _ _ _ _ (SetSmooth_run t tx b w Ht)), SetWrap_run.
  - rewrite (run_bind_ret _ _ _ _ _ (SetWrap_run t m w)).
    by apply SetSmooth_run.
  - repeat (rewrite texParams_wrapped || rewrite texParams_smoothed).
    cbn [smoothed wrapped glctx]. rewrite !binding2D_TexParameteri.
    apply map_eq. intros k. rewrite !lookup_insert.
    repeat case_decide; simplify_eq; done.
  - reflexivity.
  - reflexivity.
Qed.

(** Both orders on the bound 2x2 example texture. *)
Lemma SetSmooth_SetWrap_commute_witness :
  gl.texParams (glctx (snd ((SetSmooth 0%nat true;; SetWrap 0%nat REPEAT) (example_world 1))))
  = gl.texParams (glctx (snd ((SetWrap 0%nat REPEAT;; SetSmooth 0%nat true) (example_world 1)))).
Proof.
  destruct (SetSmooth_SetWrap_commute 0%nat (example_texture 1) true REPEAT
              (example_world 1) eq_refl)
    as (w1 & w2 & -> & -> & Hp & _).
  exact Hp.
Defined.

(** X6.  A setter overwrites what the setter before it did: after two
    [SetSmooth] calls the parameters and the flag are those of the
    second alone, and likewise for two [SetWrap] calls. *)
Theorem setters_overwrite t tx a b m n w :
  heap w !! t = Some tx ->
  (gl.texParams (glctx (snd ((SetSmooth t a;; SetSmooth t b) w)))
   = gl.texParams (glctx (snd (SetSmooth t b w)))
   /\ heap (snd ((SetSmooth t a;; SetSmooth t b) w)) = heap (snd (SetSmooth t b w)))
  /\ gl.texParams (glctx (snd ((SetWrap t m;; SetWrap t n) w)))
     = gl.texParams (glctx (snd (SetWrap t n w))).
Proof.
  intros Ht.
  assert (Hlt : (t < length (heap w))%nat) by by eapply lookup_lt_Some.
  rewrite (run_bind_ret _ _ _ _ _ (SetSmooth_run t tx a w Ht)).
  rewrite (SetSmooth_run t (set_smooth a tx) b (smoothed t tx a w))
    by (cbn [smoothed heap]; by apply list_lookup_insert_eq).
  rewrite (SetSmooth_run t tx b w Ht).
  rewrite (run_bind_ret _ _ _ _ _ (SetWrap_run t m w)), !SetWrap_run.
  cbn [snd]. repeat split.
  - rewrite !texParams_smoothed. cbn [smoothed glctx set_smooth mipmapLevels].
    rewrite !binding2D_TexParameteri.
    apply map_eq. intros k. rewrite !lookup_insert.
    repeat case_decide; simplify_eq; done.
  - cbn [smoothed heap]. by rewrite list_insert_insert_eq.
  - rewrite !texParams_wrapped. cbn [wrapped glctx].
    rewrite !binding2D_TexParameteri.
    apply map_eq. intros k. rewrite !lookup_insert.
    repeat case_decide; simplify_eq; done.
Qed.

(** Smooth then pixely, and clamp then repeat, on the example texture. *)
Lemma setters_overwrite_witness :
  gl.texParams (glctx (snd ((SetSmooth 0%nat true;; SetSmooth 0%nat false) (example_world 1))))
  = gl.texParams (glctx (snd (SetSmooth 0%nat false (example_world 1)))).
Proof.
  exact (proj1 (proj1 (setters_overwrite 0%nat (example_texture 1) true false
                         CLAMP_TO_EDGE REPEAT (example_world 1) eq_refl))).
Defined.

(** X7.  The setters write to whatever texture is bound, not to their
    receiver: called on a texture while another name is bound, they
    leave every parameter of the receiver's own texture as it was. *)
Theorem setters_miss_unbound_texture t tx b m w :
  heap w !! t = Some tx ->
  gl.binding2D (glctx w) <> obj (tex tx) ->
  forall p,
    gl.texParams (glctx (snd (SetSmooth t b w))) !! (obj (tex tx), p)
    = gl.texParams (glctx w) !! (obj (tex tx), p)
    /\ gl.texParams (glctx (snd (SetWrap t m w))) !! (obj (tex tx), p)
       = gl.texParams (glctx w) !! (obj (tex tx), p).
Proof.
  intros Ht Hne p. rewrite (SetSmooth_run t tx b w Ht), SetWrap_run. cbn [snd].
  rewrite texParams_smoothed, texParams_wrapped.
  split; rewrite !lookup_insert_ne; try done; intros [=]; congruence.
Qed.

(** Texture 1 of the two, with name 7 bound: its parameters stay unset. *)
Lemma setters_miss_unbound_texture_witness :
  gl.texParams (glctx (snd (SetSmooth 0%nat true two_textures)))
  !! (1, gl.TEXTURE_MIN_FILTER) = None.
Proof.
  exact (proj1 (setters_miss_unbound_texture 0%nat (constructed_texture 1 2 2 0 false)
                  true REPEAT two_textures eq_refl ltac:(discriminate)
                  gl.TEXTURE_MIN_FILTER)).
Defined.

(** X8.  Inside a scope the setters reach their receiver: [Begin],
    [SetSmooth], [SetWrap], [End] on a texture set the two filters and
    the two wrap modes of that texture's own name, store the flag, leave
    the parameters of every other name alone and put the binding back. *)
Theorem scoped_setters_reach_texture t tx b m w :
  heap w !! t = Some tx ->
  is_texture tx ->
  in_int32 m ->
  exists w',
    (Begin t;; SetSmooth t b;; SetWrap t m;; End t) w = (Ret tt, w')
    /\ gl.texParams (glctx w') !! (obj (tex tx), gl.TEXTURE_MAG_FILTER)
       = Some (mag_filter b)
    /\ gl.texParams (glctx w') !! (obj (tex tx), gl.TEXTURE_MIN_FILTER)
       = Some (min_filter b (mipmapLevels tx))
    /\ gl.texParams (glctx w') !! (obj (tex tx), gl.TEXTURE_WRAP_S) = Some m
    /\ gl.texParams (glctx w') !! (obj (tex tx), gl.TEXTURE_WRAP_T) = Some m
    /\ (forall name p, name <> obj (tex tx) ->
          gl.texParams (glctx w') !! (name, p) = gl.texParams (glctx w) !! (name, p))
    /\ gl.binding2D (glctx w') = gl.binding2D (glctx w)
    /\ heap w' = <[t := set_smooth b tx]> (heap w).
Proof.
  intros Ht Htx Hm.
  assert (Hlt : (t < length (heap w))%nat) by by eapply lookup_lt_Some.
  set (tx1 := set_prev (gl.binding2D (glctx w) :: prev (tex tx)) tx).
  set (w3 := wrapped m (smoothed t tx1 b (begun t tx w))).
  assert (Ht3 : heap w3 !! t = Some (set_smooth b tx1)).
  { cbn [w3 wrapped smoothed begun heap].
    rewrite list_insert_insert_eq. by apply list_lookup_insert_eq. }
  eexists. split.
  { rewrite (run_bind_ret _ _ _ _ _ (Begin_run t tx w Ht Htx)).
    erewrite run_bind_ret
      by (apply (SetSmooth_run t tx1); cbn [begun heap];
          by apply list_lookup_insert_eq).
    rewrite (run_bind_ret _ _ _ _ _ (SetWrap_run t m _)). fold w3.
    apply (End_run t (set_smooth b tx1) (gl.binding2D (glctx w)) (prev (tex tx)) w3 Ht3).
    - by apply is_texture_set_prev.
    - reflexivity. }
  cbn [glctx heap]. change (gl.texParams (gl.BindTexture gl.TEXTURE_2D
                              (gl.binding2D (glctx w)) (glctx w3)))
    with (gl.texParams (glctx w3)).
  unfold w3. rewrite texParams_wrapped, texParams_smoothed, (int32_exact m Hm).
  cbn [smoothed begun glctx tx1 set_prev mipmapLevels].
  rewrite !binding2D_TexParameteri.
  change (gl.binding2D (gl.BindTexture gl.TEXTURE_2D (obj (tex tx))
            (gl.log (gl.CGetIntegerv gl.TEXTURE_BINDING_2D) (glctx w))))
    with (obj (tex tx)).
  change (gl.texParams (gl.BindTexture gl.TEXTURE_2D (obj (tex tx))
            (gl.log (gl.CGetIntegerv gl.TEXTURE_BINDING_2D) (glctx w))))
    with (gl.texParams (glctx w)).
  repeat split.
  - rewrite !lookup_insert_ne by (intros [=]). apply lookup_insert_eq.
  - rewrite !lookup_insert_ne by (intros [=]). apply lookup_insert_eq.
  - rewrite lookup_insert_ne by (intros [=]). apply lookup_insert_eq.
  - apply lookup_insert_eq.
  - intros name p Hne. rewrite !lookup_insert_ne; try done; intros [=]; congruence.
  - cbn [wrapped smoothed begun heap].
    rewrite !list_insert_insert_eq. f_equal. by destruct tx as [[] ? ? ? ?].
Qed.

(** Texture 0 of the two (name 1), used in a scope while name 7 is bound. *)
Lemma scoped_setters_reach_texture_witness :
  exists w',
    (Begin 0%nat;; SetSmooth 0%nat true;; SetWrap 0%nat REPEAT;; End 0%nat) two_textures
    = (Ret tt, w')
    /\ gl.texParams (glctx w') !! (1, gl.TEXTURE_WRAP_S) = Some REPEAT
    /\ gl.binding2D (glctx w') = 7.
Proof.
  destruct (scoped_setters_reach_texture 0%nat (constructed_texture 1 2 2 0 false)
              true REPEAT two_textures eq_refl)
    as (w' & Hrun & _ & _ & HS & _ & _ & Hb & _).
  - by split.
  - unfold in_int32, REPEAT, gl.REPEAT. lia.
  - exists w'. repeat split; assumption.
Defined.

(** X9.  [SetSmooth] picks a minification filter that samples the mip
    chain exactly when the texture has mipmap levels, and never picks
    such a filter for magnification. *)
Theorem SetSmooth_mipmap_filter_iff_levels t tx b w :
  heap w !! t = Some tx ->
  exists w' vmin vmag,
    SetSmooth t b w = (Ret tt, w')
    /\ gl.texParams (glctx w') !! (gl.binding2D (glctx w), gl.TEXTURE_MIN_FILTER)
       = Some vmin
    /\ gl.texParams (glctx w') !! (gl.binding2D (glctx w), gl.TEXTURE_MAG_FILTER)
       = Some vmag
    /\ (is_mipmap_filter vmin = true <-> mipmapLevels tx > 0)
    /\ is_mipmap_filter vmag = false.
Proof.
  intros Ht.
  destruct (SetSmooth_sets_filters t tx b w Ht) as (w' & Hrun & Hmag & Hmin & _).
  exists w', (min_filter b (mipmapLevels tx)), (mag_filter b).
  split; [done|]. split; [done|]. split; [done|]. split.
  - unfold min_filter. destruct b, (Z.gtb_spec (mipmapLevels tx) 0); cbn; split;
      (done || lia).
  - by destruct b.
Qed.

(** The example texture without mipmaps gets a plain filter. *)
Lemma SetSmooth_mipmap_filter_iff_levels_witness :
  exists v,
    gl.texParams (glctx (snd (SetSmooth 0%nat true (example_world 0))))
    !! (1, gl.TEXTURE_MIN_FILTER) = Some v
    /\ is_mipmap_filter v = false.
Proof.
  destruct (SetSmooth_mipmap_filter_iff_levels 0%nat (example_texture 0) true
              (example_world 0) eq_refl)
    as (w' & vmin & vmag & Hrun & Hmin & _ & Hiff & _).
  exists vmin. rewrite Hrun. split; [exact Hmin|].
  destruct (is_mipmap_filter vmin); [|reflexivity].
  pose proof (proj1 Hiff eq_refl) as Hpos. cbn in Hpos. lia.
Defined.

(** ** Pixel transfers change nothing but the log *)

Lemma copyRows_world twidth x y w pixels rows :
  forall subP wd, snd (copyRows twidth x y w pixels rows subP wd) = wd.
Proof.
  induction rows as [|i rows IH]; intros subP wd; cbn [copyRows]; [reflexivity|].
  destruct (slice_ok pixels _ _); cbn [negb]; [|reflexivity].
  destruct (slice_ok subP _ _); cbn [negb]; [apply IH|reflexivity].
Qed.

Lemma logged_with_calls c w : logged c w = with_calls w [c].
Proof. reflexivity. Qed.

Lemma Pixels_world t x y w h wd :
  exists calls,
    snd (Pixels t x y w h wd) = with_calls wd calls
    /\ (calls = []
        \/ calls = [gl.CGetTexImage gl.TEXTURE_2D 0 gl.RGBA gl.UNSIGNED_BYTE]).
Proof.
  unfold Pixels. rewrite run_bind. unfold load.
  destruct (heap wd !! t) as [tx|]; [|exists []; by rewrite with_calls_nil; auto].
  rewrite run_bind. unfold make at 1.
  destruct (_ || _); [exists []; by rewrite with_calls_nil; auto|].
  unfold mret at 1, M_ret at 1. rewrite run_bind.
  destruct (replicate _ _) as [|b0 buf];
    [exists []; by rewrite with_calls_nil; auto|].
  cbn [Ptr]. unfold mret at 1, M_ret at 1.
  rewrite run_bind. cbn [glget gl.GetTexImage].
  exists [gl.CGetTexImage gl.TEXTURE_2D 0 gl.RGBA gl.UNSIGNED_BYTE].
  split; [|by right]. rewrite run_bind. unfold make.
  destruct (_ || _); [reflexivity|].
  unfold mret at 1, M_ret at 1. by rewrite copyRows_world.
Qed.

Lemma SetPixels_world t x y w h pixels wd :
  exists calls, snd (SetPixels t x y w h pixels wd) = with_calls wd calls.
Proof.
  unfold SetPixels, panic.
  destruct (negb _); [exists []; by rewrite with_calls_nil|].
  rewrite run_bind.
  destruct pixels as [|b0 rest]; [exists []; by rewrite with_calls_nil|].
  cbn [Ptr]. unfold mret at 1, M_ret at 1.
  rewrite run_bind. cbn [glcall glget gl.TexSubImage2D].
  rewrite run_bind. unfold load. cbn [heap].
  destruct (heap wd !! t) as [tx|]; [|by eexists [_]].
  destruct (mipmapLevels tx >? 0); [|by eexists [_]].
  eexists [_; _]. unfold mret, M_ret, glcall, glget. cbn [snd].
  apply world_eq; try reflexivity.
  unfold gl.GenerateMipmap, gl.TexSubImage2D, gl.log. cbn.
  by rewrite <- app_assoc.
Qed.

(** X10.  [Pixels] and [SetPixels] only talk to the driver: whatever
    their arguments, and whether they return or panic, they leave every
    struct, the finalizers, the binding and the sampler parameters as
    they were.  [Pixels] makes at most the one readback call. *)
Theorem pixel_transfers_change_only_log t x y w h pixels wd :
  (exists calls,
     snd (Pixels t x y w h wd) = with_calls wd calls
     /\ (calls = []
         \/ calls = [gl.CGetTexImage gl.TEXTURE_2D 0 gl.RGBA gl.UNSIGNED_BYTE]))
  /\ (exists calls, snd (SetPixels t x y w h pixels wd) = with_calls wd calls).
Proof. split; [apply Pixels_world|apply SetPixels_world]. Qed.

(** ** Reading the whole image *)

(** Two lists of [h] rows of [r] elements with equal rows are equal. *)
Lemma rows_determine {A} (l1 l2 : list A) (r h : Z) :
  0 <= r -> 0 <= h ->
  GoInt.len l1 = h * r -> GoInt.len l2 = h * r ->
  (forall i, 0 <= i < h -> sub l1 (i * r) ((i + 1) * r) = sub l2 (i * r) ((i + 1) * r)) ->
  l1 = l2.
Proof.
  unfold GoInt.len. intros Hr Hh Hl1 Hl2 Hrows.
  assert (Hk : forall k : nat, Z.of_nat k <= h ->
            take (Z.to_nat (Z.of_nat k * r)) l1 = take (Z.to_nat (Z.of_nat k * r)) l2).
  { induction k as [|k IH]; intros Hle; [reflexivity|].
    assert (0 <= Z.of_nat k * r) by (apply Z.mul_nonneg_nonneg; lia).
    replace (Z.to_nat (Z.of_nat (S k) * r))
      with (Z.to_nat (Z.of_nat k * r) + Z.to_nat r)%nat by lia.
    rewrite <- !take_take_drop, IH by lia. f_equal.
    specialize (Hrows (Z.of_nat k) ltac:(lia)). unfold sub in Hrows.
    replace ((Z.of_nat k + 1) * r - Z.of_nat k * r) with r in Hrows by lia.
    exact Hrows. }
  specialize (Hk (Z.to_nat h) ltac:(lia)). rewrite Z2Nat.id in Hk by lia.
  rewrite !take_ge in Hk by lia. exact Hk.
Qed.

(** X11.  Asked for the whole image of a texture with positive
    dimensions whose width x height x 4 bytes [make] can allocate,
    [Pixels] returns the readback as it is: its row-by-row copy loses and
    reorders nothing. *)
Theorem Pixels_whole_image_is_readback t tx wd :
  heap wd !! t = Some tx ->
  well_sized tx ->
  fst (Pixels t 0 0 (width tx) (height tx) wd) = Ret (readback tx wd).
Proof.
  intros Ht Hsz.
  assert (Hin : inside tx 0 0 (width tx) (height tx))
    by (destruct Hsz as (? & ? & ?); unfold inside; lia).
  destruct (inside_sizes tx 0 0 (width tx) (height tx) Hsz Hin)
    as (EN & HN & Ewh & Hwh).
  destruct (Pixels_rows t tx 0 0 (width tx) (height tx) wd Ht EN HN Ewh Hwh)
    as (out & Hrun & Hlen & Hrows).
  { destruct Hsz as (? & ? & ?). lia. }
  { destruct Hsz as (? & ? & ?). lia. }
  { intros i Hi. by apply (inside_row tx 0 0 (width tx) (height tx) i). }
  destruct Hsz as (HW & HH & Hmax).
  rewrite Hrun. cbn [fst]. f_equal.
  apply (rows_determine out (readback tx wd) (width tx * 4) (height tx)); try lia.
  { rewrite len_readback by lia. lia. }
  intros i Hi. specialize (Hrows i Hi). unfold rowLo, rowHi in Hrows.
  replace (i * (width tx * 4)) with (i * width tx * 4) by lia.
  replace ((i + 1) * (width tx * 4)) with ((i + 1) * width tx * 4) by lia.
  rewrite Hrows. f_equal; lia.
Qed.

(** The 2x2 example texture reads back its sixteen bytes. *)
Lemma Pixels_whole_image_is_readback_witness :
  fst (Pixels 0%nat 0 0 2 2 (example_world 0))
  = Ret (readback (example_texture 0) (example_world 0)).
Proof.
  apply (Pixels_whole_image_is_readback 0%nat (example_texture 0) (example_world 0)
           eq_refl).
  unfold well_sized, GoInt.max_alloc. cbn. lia.
Defined.

(** X12.  With [h <= 0] the loop of [Pixels] does not run, so nothing
    is checked against the image: on a texture with positive dimensions
    whose width x height x 4 bytes [make] can allocate, when w*h*4 is
    neither negative nor beyond what [make] allocates, the call returns
    that many zero bytes, whatever [x] and [y] are. *)
Theorem Pixels_without_rows_returns_zeros t tx x y w h wd :
  heap wd !! t = Some tx ->
  well_sized tx ->
  h <= 0 -> 0 <= w * h * 4 <= GoInt.max_alloc ->
  fst (Pixels t x y w h wd) = Ret (replicate (Z.to_nat (w * h * 4)) zero_byte).
Proof.
  intros Ht Hsz Hh0 Hwh.
  assert (Hin : inside tx 0 0 0 0)
    by (destruct Hsz as (? & ? & ?); unfold inside; lia).
  destruct (inside_sizes tx 0 0 0 0 Hsz Hin) as (EN & HN & _).
  assert (Ewh : w *i h *i 4 = w * h * 4).
  { int_exact mul_exact w h. int_exact mul_exact (w * h) 4. reflexivity. }
  rewrite (Pixels_unfold t tx) by (auto; lia).
  unfold seqZ. replace (Z.to_nat h) with 0%nat by lia. cbn. by rewrite Ewh.
Qed.

(** A rectangle of width -1 and height -1, far outside the example
    texture, yields four zero bytes. *)
Lemma Pixels_without_rows_returns_zeros_witness :
  fst (Pixels 0%nat 100 (-100) (-1) (-1) (example_world 0))
  = Ret [Byte.x00; Byte.x00; Byte.x00; Byte.x00].
Proof.
  apply (Pixels_without_rows_returns_zeros 0%nat (example_texture 0) 100 (-100)
           (-1) (-1) (example_world 0) eq_refl);
    unfold well_sized, GoInt.max_alloc; cbn; lia.
Defined.

(** ** Construction and the rest of the world *)

(** X13.  [NewTexture] disturbs nothing it did not create.  Whether it
    returns or panics, it allocates one struct, at a pointer that was not
    in use, holding the name the driver handed out and the constructor's
    sizes; the structs of all other textures are as they were, and so are
    the sampler parameters of every name other than the new one.  Given
    a non-empty buffer it returns that pointer, and the struct holds the
    smoothing flag; given an empty one it panics in [gl.Ptr] having set no
    sampler parameter and registered no finalizer. *)
Theorem NewTexture_leaves_others_alone wd ht levels sm pixels w :
  exists r w' name tx,
    NewTexture wd ht levels sm pixels w = (r, w')
    /\ heap w !! length (heap w) = None
    /\ heap w' = heap w ++ [tx]
    /\ heap w' !! length (heap w) = Some tx
    /\ obj (tex tx) = name
    /\ width tx = wd /\ height tx = ht
    /\ mipmapLevels tx = levels
    /\ prev (tex tx) = []
    /\ (forall t0 tx0, heap w !! t0 = Some tx0 -> heap w' !! t0 = Some tx0)
    /\ (forall n p, n <> name ->
          gl.texParams (glctx w') !! (n, p) = gl.texParams (glctx w) !! (n, p))
    /\ (pixels <> [] ->
        r = Ret (length (heap w)) /\ smooth tx = sm
        /\ finalizers w' = finalizers w ++ [length (heap w)])
    /\ (pixels = [] ->
        r = Fail (RuntimeError EmptySlicePtr)
        /\ gl.texParams (glctx w') = gl.texParams (glctx w)
        /\ finalizers w' = finalizers w).
Proof.
  set (name := gl.gen_name (gl.driver (glctx w)) (gl.calls (glctx w))).
  destruct pixels as [|b0 rest].
  - exists (Fail (RuntimeError EmptySlicePtr)), (aborted wd ht levels w), name,
      (constructed_texture name wd ht levels false).
    split; [apply NewTexture_run_empty|].
    split; [by apply lookup_ge_None_2|].
    split; [reflexivity|].
    split; [apply lookup_last|].
    repeat split; try done.
    intros t0 tx0 Ht0. cbn [aborted heap]. by apply lookup_app_l_Some.
  - exists (Ret (length (heap w))), (constructed wd ht levels sm (b0 :: rest) w), name,
      (constructed_texture name wd ht levels sm).
    split; [by apply NewTexture_run|].
    split; [by apply lookup_ge_None_2|].
    split; [reflexivity|].
    split; [apply lookup_last|].
    repeat split; try done.
    + intros t0 tx0 Ht0. cbn [constructed heap]. by apply lookup_app_l_Some.
    + intros n p Hne. cbn [constructed glctx gl.texParams]. fold name.
      unfold constructed_params.
      rewrite !lookup_insert_ne; try done; intros [=]; congruence.
Qed.

(** A third texture beside the two, built from a full 8x8 buffer:
    texture 0 keeps its struct and the new pointer is returned. *)
Lemma NewTexture_leaves_others_alone_witness :
  heap (snd (NewTexture 8 8 1 true (replicate 256 Byte.x01) two_textures)) !! 0%nat
  = Some (constructed_texture 1 2 2 0 false)
  /\ fst (NewTexture 8 8 1 true (replicate 256 Byte.x01) two_textures) = Ret 2%nat.
Proof.
  destruct (NewTexture_leaves_others_alone 8 8 1 true (replicate 256 Byte.x01)
              two_textures)
    as (r & w' & name & tx & Hrun & _ & _ & _ & _ & _ & _ & _ & _ & Hkeep & _
        & Hfull & _).
  rewrite Hrun. split; [exact (Hkeep 0%nat _ eq_refl)|].
  by destruct Hfull as (-> & _).
Defined.

(** ** The binding slot between scopes *)

(** X14.  Only [Begin] and [End] leave the binding slot changed: every
    other call, whatever its arguments and whether it returns or panics,
    ends with the name bound that was bound before.  In particular
    [NewTexture] unbinds the texture it creates, also when [gl.Ptr] panics
    on an empty buffer and only the deferred [End] is left to run. *)
Theorem binding_moves_only_in_scope_calls c w :
  is_scope_call c = false ->
  gl.binding2D (glctx (snd (exec c w))) = gl.binding2D (glctx w).
Proof.
  destruct c as [wd ht lv sm px|t|t|t x y ww h px|t x y ww h|t b|t m];
    cbn [is_scope_call exec]; intros Hc; try discriminate.
  - rewrite run_bind. destruct px as [|b0 rest].
    + rewrite NewTexture_run_empty. reflexivity.
    + rewrite NewTexture_run by done. reflexivity.
  - destruct (SetPixels_world t x y ww h px w) as (calls & ->). reflexivity.
  - rewrite run_bind.
    destruct (Pixels_world t x y ww h w) as (calls & Hw & _).
    destruct (Pixels t x y ww h w) as [[out|e] w']; cbn [snd] in *; by subst.
  - destruct (heap w !! t) as [tx|] eqn:Ht.
    + rewrite (SetSmooth_run t tx) by done. cbn [snd smoothed glctx].
      by rewrite !binding2D_TexParameteri.
    + unfold SetSmooth. rewrite run_bind. unfold update. by rewrite Ht.
  - rewrite SetWrap_run. cbn [snd wrapped glctx].
    by rewrite !binding2D_TexParameteri.
Qed.

(** With name 7 bound: a construction, a construction that panics on an
    empty buffer after [Begin], and a failing upload. *)
Lemma binding_moves_only_in_scope_calls_witness :
  gl.binding2D
    (glctx (snd (exec (CallNewTexture 4 4 2 true (replicate 64 Byte.x01))
                   two_textures))) = 7
  /\ (fst (NewTexture 4 4 2 true [] two_textures) = Fail (RuntimeError EmptySlicePtr)
      /\ gl.binding2D (glctx (snd (exec (CallNewTexture 4 4 2 true []) two_textures)))
         = 7)
  /\ gl.binding2D (glctx (snd (exec (CallSetPixels 0%nat 0 0 1 1 []) two_textures))) = 7.
Proof.
  split; [|split; [split|]].
  - exact (binding_moves_only_in_scope_calls
             (CallNewTexture 4 4 2 true (replicate 64 Byte.x01))
             two_textures eq_refl).
  - by rewrite NewTexture_run_empty.
  - exact (binding_moves_only_in_scope_calls (CallNewTexture 4 4 2 true [])
             two_textures eq_refl).
  - exact (binding_moves_only_in_scope_calls (CallSetPixels 0%nat 0 0 1 1 [])
             two_textures eq_refl).
Defined.
